(** * lupinus: the schema validator, the bracket expressions and the
      test-case executor of the [Validator] class, embedded in Rocq

    The development follows the JavaScript source ([src/cli.js], whose
    lines the comments cite) function by function.
    Values of type [any] are JSON values ([json]); a JavaScript number is a
    decimal [m * 10^e], [NaN] or an infinity; an exception is a value of
    [error] carried by the [result] type; the calls of the logger are
    kept in order in the state of a run.  What the validator calls and
    does not define is a class: the regular expression engine ([RegExp]),
    the jsonpath package ([JSONPath]) and the HTTP transport ([Http]). *)

From Stdlib Require Import String Ascii List ZArith NArith Bool Lia.
From Stdlib Require DecimalString Decimal DecimalN.
Import ListNotations.

Local Open Scope string_scope.
Local Open Scope list_scope.
Set Warnings "-register-all".

(* ================================================================== *)
(** ** Characters and strings

    A string is the list of the bytes of its UTF-8 form, which for ASCII
    text is the list of UTF-16 code units the source sees.  Where the
    source counts code units ([length]) or tells the characters that the
    atom [.] refuses, the bytes are read as UTF-8. *)

Module Str.

Definition chars (s : string) : list ascii := list_ascii_of_string s.
Definition of_chars (l : list ascii) : string := string_of_list_ascii l.

Definition code (c : ascii) : N := N_of_ascii c.

Definition between (lo hi c : ascii) : bool :=
  (code lo <=? code c)%N && (code c <=? code hi)%N.

Definition is_digit (c : ascii) : bool := between "0" "9" c.
Definition is_lower (c : ascii) : bool := between "a" "z" c.
Definition is_upper (c : ascii) : bool := between "A" "Z" c.
Definition is_alnum (c : ascii) : bool := is_digit c || is_lower c || is_upper c.

Definition is_one_of (set : string) (c : ascii) : bool :=
  existsb (Ascii.eqb c) (chars set).

(** Line terminators, which the regular expression atom [.] refuses:
    LF, CR, U+2028 and U+2029, the last two being the bytes [E2 80 A8]
    and [E2 80 A9].  [is_line_terminator l]: one begins [l]. *)
Definition is_line_terminator (l : list ascii) : bool :=
  match l with
  | c :: rest =>
      (code c =? 10)%N || (code c =? 13)%N
      || ((code c =? 226)%N
          && match rest with
             | d :: e :: _ =>
                 (code d =? 128)%N && ((code e =? 168)%N || (code e =? 169)%N)
             | _ => false
             end)
  | [] => false
  end.

(** No line terminator begins anywhere in [l]: [.] takes every
    character of it. *)
Fixpoint on_one_line (l : list ascii) : bool :=
  match l with
  | [] => true
  | _ :: rest => negb (is_line_terminator l) && on_one_line rest
  end.

(** White space removed by [String.prototype.trim] and skipped by the
    string-to-number conversion (the ASCII part of it). *)
Definition is_space (c : ascii) : bool :=
  (code c =? 32)%N || ((9 <=? code c)%N && (code c <=? 13)%N).

Fixpoint dropWhile (p : ascii -> bool) (l : list ascii) : list ascii :=
  match l with
  | [] => []
  | c :: l' => if p c then dropWhile p l' else l
  end.

Fixpoint takeWhile (p : ascii -> bool) (l : list ascii) : list ascii :=
  match l with
  | [] => []
  | c :: l' => if p c then c :: takeWhile p l' else []
  end.

Definition trim_chars (l : list ascii) : list ascii :=
  rev (dropWhile is_space (rev (dropWhile is_space l))).

Definition trim (s : string) : string := of_chars (trim_chars (chars s)).

Fixpoint starts_with (p l : list ascii) : bool :=
  match p, l with
  | [], _ => true
  | _ :: _, [] => false
  | a :: p', b :: l' => Ascii.eqb a b && starts_with p' l'
  end.

Definition startsWith (s prefix : string) : bool :=
  starts_with (chars prefix) (chars s).

(** [s.includes(t)] *)
Fixpoint includes_chars (t l : list ascii) : bool :=
  starts_with t l ||
  match l with
  | [] => false
  | _ :: l' => includes_chars t l'
  end.

Definition includes (s t : string) : bool := includes_chars (chars t) (chars s).

Definition to_lower (c : ascii) : ascii :=
  if is_upper c then ascii_of_N (code c + 32) else c.

Definition toLowerCase (s : string) : string := of_chars (map to_lower (chars s)).

(** [s.substring(n)] *)
Definition substring_from (n : nat) (s : string) : string :=
  of_chars (skipn n (chars s)).

(** [s.replace(pattern, replacement)] for a string pattern: the first
    occurrence only.  The replacements used by the validator are
    percent-encoded and hold no [$] sequence. *)
Fixpoint replace_first (fuel : nat) (pat rep l : list ascii) : list ascii :=
  match fuel with
  | O => l
  | S fuel' =>
      if starts_with pat l then rep ++ skipn (List.length pat) l
      else match l with
           | [] => []
           | c :: l' => c :: replace_first fuel' pat rep l'
           end
  end.

Definition replace (s pat rep : string) : string :=
  of_chars (replace_first (S (String.length s)) (chars pat) (chars rep) (chars s)).

Fixpoint join (sep : string) (l : list string) : string :=
  match l with
  | [] => EmptyString
  | [s] => s
  | s :: l' => (s ++ sep ++ join sep l')%string
  end.

(** Code-unit order of two strings, as [<] on strings compares them. *)
Fixpoint lt_chars (a b : list ascii) : bool :=
  match a, b with
  | _, [] => false
  | [], _ :: _ => true
  | x :: a', y :: b' =>
      if (code x <? code y)%N then true
      else if (code y <? code x)%N then false
      else lt_chars a' b'
  end.

Definition ltb (a b : string) : bool := lt_chars (chars a) (chars b).

Definition of_N (n : N) : string := DecimalString.NilZero.string_of_uint (N.to_uint n).
Definition of_nat (n : nat) : string := of_N (N.of_nat n).

(** The UTF-16 code units a byte stands for: the first byte of a
    character of one to three bytes stands for one, the first of four
    for the two of a surrogate pair, a byte that continues a character
    for none. *)
Definition units (c : ascii) : nat :=
  if (code c <? 128)%N then 1
  else if (code c <? 192)%N then 0
  else if (code c <? 240)%N then 1
  else 2.

(** [s.length], in UTF-16 code units. *)
Definition length (s : string) : nat := list_sum (map units (chars s)).

End Str.

(* ================================================================== *)
(** ** JavaScript numbers

    A finite number is kept as the decimal [mantissa * 10^exponent] it was
    written as; comparisons are exact.  The rounding of a literal to the
    nearest double is not represented. *)

Module Number.

Inductive number :=
| NaN
| Infinity (negative : bool)
| Finite (mantissa exponent : Z).

Definition of_Z (z : Z) : number := Finite z 0.
Definition of_nat (n : nat) : number := Finite (Z.of_nat n) 0.

(** [None] when one side is [NaN]: every comparison is then false. *)
Definition compare (a b : number) : option comparison :=
  match a, b with
  | NaN, _ | _, NaN => None
  | Infinity n1, Infinity n2 =>
      Some (if n1 then (if n2 then Eq else Lt) else (if n2 then Gt else Eq))
  | Infinity n1, Finite _ _ => Some (if n1 then Lt else Gt)
  | Finite _ _, Infinity n2 => Some (if n2 then Gt else Lt)
  | Finite m1 e1, Finite m2 e2 =>
      let e := Z.min e1 e2 in
      Some (Z.compare (m1 * 10 ^ (e1 - e)) (m2 * 10 ^ (e2 - e)))
  end.

Definition eqb (a b : number) : bool :=
  match compare a b with Some Eq => true | _ => false end.
Definition ltb (a b : number) : bool :=
  match compare a b with Some Lt => true | _ => false end.
Definition gtb (a b : number) : bool :=
  match compare a b with Some Gt => true | _ => false end.
Definition leb (a b : number) : bool :=
  match compare a b with Some Lt | Some Eq => true | _ => false end.
Definition geb (a b : number) : bool :=
  match compare a b with Some Gt | Some Eq => true | _ => false end.

Definition repeat_zero (n : Z) : list ascii := repeat "0"%char (Z.to_nat n).

(** [Number.prototype.toString()], radix 10. *)
Definition toString (x : number) : string :=
  match x with
  | NaN => "NaN"
  | Infinity false => "Infinity"
  | Infinity true => "-Infinity"
  | Finite m e =>
      if (m =? 0)%Z then "0" else
      let all := Str.chars (Str.of_N (Z.abs_N m)) in
      let d := rev (Str.dropWhile (Ascii.eqb "0") (rev all)) in
      let k := Z.of_nat (List.length d) in
      let n := (Z.of_nat (List.length all) + e)%Z in
      let body :=
        if ((k <=? n) && (n <=? 21))%Z then d ++ repeat_zero (n - k)
        else if ((0 <? n) && (n <=? 21))%Z then
          firstn (Z.to_nat n) d ++ "."%char :: skipn (Z.to_nat n) d
        else if ((-6 <? n) && (n <=? 0))%Z then
          "0"%char :: "."%char :: repeat_zero (- n) ++ d
        else
          let ex := (n - 1)%Z in
          let exs := (if (ex <? 0)%Z then "-"%char else "+"%char)
                     :: Str.chars (Str.of_N (Z.abs_N ex)) in
          match d with
          | [] => []
          | [c] => c :: "e"%char :: exs
          | c :: rest => c :: "."%char :: rest ++ "e"%char :: exs
          end in
      Str.of_chars (if (m <? 0)%Z then "-"%char :: body else body)
  end.

Definition digit_value (c : ascii) : Z := Z.of_N (Str.code c - 48).

Definition digits_value (l : list ascii) : Z :=
  fold_left (fun acc c => (acc * 10 + digit_value c)%Z) l 0%Z.

Definition hex_value (c : ascii) : option Z :=
  if Str.is_digit c then Some (digit_value c)
  else if Str.between "a" "f" c then Some (Z.of_N (Str.code c - 87))
  else if Str.between "A" "F" c then Some (Z.of_N (Str.code c - 55))
  else None.

Fixpoint radix_value (radix : Z) (l : list ascii) (acc : Z) : option Z :=
  match l with
  | [] => Some acc
  | c :: l' =>
      match hex_value c with
      | Some v => if (v <? radix)%Z then radix_value radix l' (acc * radix + v)%Z else None
      | None => None
      end
  end.

(** The exponent part [e[+-]digits] of a decimal literal, [None] when
    the rest of the literal is not one. *)
Definition exponent_part (l : list ascii) : option Z :=
  match l with
  | [] => Some 0%Z
  | c :: l' =>
      if Ascii.eqb c "e" || Ascii.eqb c "E" then
        let '(neg, ds) :=
          match l' with
          | "-"%char :: ds => (true, ds)
          | "+"%char :: ds => (false, ds)
          | _ => (false, l')
          end in
        match ds with
        | [] => None
        | _ => if forallb Str.is_digit ds
               then Some (if neg then - digits_value ds else digits_value ds)%Z
               else None
        end
      else None
  end.

(** An unsigned decimal literal: [digits], [digits.], [digits.digits] or
    [.digits], then an optional exponent. *)
Definition unsigned_decimal (l : list ascii) : option (Z * Z) :=
  let int := Str.takeWhile Str.is_digit l in
  let rest := Str.dropWhile Str.is_digit l in
  let '(frac, rest') :=
    match rest with
    | "."%char :: r => (Str.takeWhile Str.is_digit r, Str.dropWhile Str.is_digit r)
    | _ => ([], rest)
    end in
  match int ++ frac with
  | [] => None
  | ds =>
      match exponent_part rest' with
      | Some ex => Some (digits_value ds, (ex - Z.of_nat (List.length frac))%Z)
      | None => None
      end
  end.

Definition is_chars (s : string) (l : list ascii) : bool :=
  String.eqb (Str.of_chars l) s.

(** [Number(s)] for a string [s] (StringToNumber). *)
Definition of_string (s : string) : number :=
  let l := Str.trim_chars (Str.chars s) in
  match l with
  | [] => Finite 0 0
  | "0"%char :: x :: _ :: _ =>
      let radix :=
        if Ascii.eqb x "x" || Ascii.eqb x "X" then Some 16%Z
        else if Ascii.eqb x "o" || Ascii.eqb x "O" then Some 8%Z
        else if Ascii.eqb x "b" || Ascii.eqb x "B" then Some 2%Z
        else None in
      match radix with
      | Some r =>
          match radix_value r (tl (tl l)) 0%Z with
          | Some v => Finite v 0
          | None => NaN
          end
      | None =>
          match unsigned_decimal l with
          | Some (m, e) => Finite m e
          | None => NaN
          end
      end
  | c :: l' =>
      let '(neg, body) :=
        if Ascii.eqb c "-" then (true, l')
        else if Ascii.eqb c "+" then (false, l')
        else (false, l) in
      if is_chars "Infinity" body then Infinity neg
      else match unsigned_decimal body with
           | Some (m, e) => Finite (if neg then - m else m)%Z e
           | None => NaN
           end
  end.

End Number.

(* ================================================================== *)
(** ** JSON values

    The data the validator handles: parsed JSON (or YAML) documents and
    response bodies.  An object is the list of its own enumerable
    properties in [Object.keys] order; a missing property ([undefined])
    is the [None] of a lookup.  The names an object inherits from
    [Object.prototype] are not represented. *)

Inductive json :=
| JNull
| JBool (b : bool)
| JNum (n : Number.number)
| JStr (s : string)
| JArr (elements : list json)
| JObj (entries : list (string * json)).

Fixpoint lookup {A : Type} (key : string) (entries : list (string * A)) : option A :=
  match entries with
  | [] => None
  | (k, v) :: rest => if String.eqb key k then Some v else lookup key rest
  end.

(** [delete object[key]] *)
Definition delete {A : Type} (key : string) (entries : list (string * A)) : list (string * A) :=
  filter (fun kv => negb (String.eqb key (fst kv))) entries.

(** [object[key] = value]: an existing property keeps its place. *)
Fixpoint assign {A : Type} (key : string) (value : A) (entries : list (string * A))
  : list (string * A) :=
  match entries with
  | [] => [(key, value)]
  | (k, v) :: rest =>
      if String.eqb key k then (k, value) :: rest else (k, v) :: assign key value rest
  end.

Module JS.

(** [String(value)]; inside [Array.prototype.join] a [null] element
    gives the empty string. *)
Fixpoint toString (v : json) : string :=
  match v with
  | JNull => "null"
  | JBool true => "true"
  | JBool false => "false"
  | JNum n => Number.toString n
  | JStr s => s
  | JArr l =>
      Str.join "," (map (fun e => match e with JNull => EmptyString | _ => toString e end) l)
  | JObj _ => "[object Object]"
  end.

(** [Number(value)] *)
Definition toNumber (v : json) : Number.number :=
  match v with
  | JNull => Number.of_Z 0
  | JBool true => Number.of_Z 1
  | JBool false => Number.of_Z 0
  | JNum n => n
  | JStr s => Number.of_string s
  | JArr _ | JObj _ => Number.of_string (toString v)
  end.

Definition is_object (v : json) : bool :=
  match v with JArr _ | JObj _ => true | _ => false end.

(** [a == b].  Two objects are equal only when they are one and the same
    object; two nodes of parsed documents never are, and a node compared
    with itself is not distinguished here. *)
Definition looseEquals (a b : json) : bool :=
  match a, b with
  | JNull, JNull => true
  | JNull, _ | _, JNull => false
  | JNum x, JNum y => Number.eqb x y
  | JStr x, JStr y => String.eqb x y
  | JBool x, JBool y => Bool.eqb x y
  | (JArr _ | JObj _), (JArr _ | JObj _) => false
  | (JArr _ | JObj _), JStr y => String.eqb (toString a) y
  | JStr x, (JArr _ | JObj _) => String.eqb x (toString b)
  | _, _ => Number.eqb (toNumber a) (toNumber b)
  end.

(** [a < b]: two strings (objects by their string conversion) are
    compared by code units, anything else as numbers. *)
Definition lessThan (a b : json) : bool :=
  match a, b with
  | (JStr _ | JArr _ | JObj _), (JStr _ | JArr _ | JObj _) =>
      Str.ltb (toString a) (toString b)
  | _, _ => Number.ltb (toNumber a) (toNumber b)
  end.

Definition lessOrEqual (a b : json) : bool :=
  match a, b with
  | (JStr _ | JArr _ | JObj _), (JStr _ | JArr _ | JObj _) =>
      negb (Str.ltb (toString b) (toString a))
  | _, _ => Number.leb (toNumber a) (toNumber b)
  end.

Definition greaterThan (a b : json) : bool := lessThan b a.
Definition greaterOrEqual (a b : json) : bool := lessOrEqual b a.

Definition hex_digit (n : N) : ascii :=
  if (n <? 10)%N then ascii_of_N (48 + n) else ascii_of_N (87 + n).

Definition dquote : ascii := ascii_of_N 34.

Definition quote_char (c : ascii) : list ascii :=
  let n := Str.code c in
  if (n =? 34)%N then ["\"%char; c]
  else if (n =? 92)%N then ["\"%char; c]
  else if (n =? 8)%N then ["\"%char; "b"%char]
  else if (n =? 9)%N then ["\"%char; "t"%char]
  else if (n =? 10)%N then ["\"%char; "n"%char]
  else if (n =? 12)%N then ["\"%char; "f"%char]
  else if (n =? 13)%N then ["\"%char; "r"%char]
  else if (n <? 32)%N then
    ["\"%char; "u"%char; "0"%char; "0"%char; hex_digit (n / 16); hex_digit (n mod 16)]
  else [c].

Definition quote (s : string) : string :=
  Str.of_chars (dquote :: flat_map quote_char (Str.chars s) ++ [dquote]).

(** [JSON.stringify(value)] without indentation. *)
Fixpoint stringify (v : json) : string :=
  match v with
  | JNull => "null"
  | JBool true => "true"
  | JBool false => "false"
  | JNum (Number.Finite _ _ as n) => Number.toString n
  | JNum _ => "null"
  | JStr s => quote s
  | JArr l => ("[" ++ Str.join "," (map stringify l) ++ "]")%string
  | JObj l =>
      ("{" ++ Str.join ","
                (map (fun kv => quote (fst kv) ++ ":" ++ stringify (snd kv)) l) ++ "}")%string
  end.

End JS.

(* ================================================================== *)
(** ** The contract: schemas and the OpenAPI document

    A property tested with [!= null] in the source is an [option] here. *)

Inductive schema := Schema {
  oneOf : option (list schema);
  anyOf : option (list schema);
  allOf : option (list schema);
  ref : option string;                       (* "$ref" *)
  type : option string;
  maxItems : option Number.number;
  minItems : option Number.number;
  items : option schema;
  properties : option (list (string * schema));
  maxLength : option Number.number;
  minLength : option Number.number;
  enum : option (list json);
  pattern : option string;
  format : option string;
  maximum : option Number.number;
  minimum : option Number.number;
  exclusiveMaximum : option Number.number;
  exclusiveMinimum : option Number.number }.

(** The schema [{}]; the [with_] functions set one keyword. *)
Definition emptySchema : schema :=
  Schema None None None None None None None None None None None None None None
         None None None None.

Definition typed (t : string) : schema :=
  Schema None None None None (Some t) None None None None None None None None None
         None None None None.

Definition with_oneOf (l : list schema) (s : schema) : schema :=
  Schema (Some l) (anyOf s) (allOf s) (ref s) (type s) (maxItems s) (minItems s)
         (items s) (properties s) (maxLength s) (minLength s) (enum s) (pattern s)
         (format s) (maximum s) (minimum s) (exclusiveMaximum s) (exclusiveMinimum s).

Definition with_anyOf (l : list schema) (s : schema) : schema :=
  Schema (oneOf s) (Some l) (allOf s) (ref s) (type s) (maxItems s) (minItems s)
         (items s) (properties s) (maxLength s) (minLength s) (enum s) (pattern s)
         (format s) (maximum s) (minimum s) (exclusiveMaximum s) (exclusiveMinimum s).

Definition with_allOf (l : list schema) (s : schema) : schema :=
  Schema (oneOf s) (anyOf s) (Some l) (ref s) (type s) (maxItems s) (minItems s)
         (items s) (properties s) (maxLength s) (minLength s) (enum s) (pattern s)
         (format s) (maximum s) (minimum s) (exclusiveMaximum s) (exclusiveMinimum s).

Definition with_ref (r : string) (s : schema) : schema :=
  Schema (oneOf s) (anyOf s) (allOf s) (Some r) (type s) (maxItems s) (minItems s)
         (items s) (properties s) (maxLength s) (minLength s) (enum s) (pattern s)
         (format s) (maximum s) (minimum s) (exclusiveMaximum s) (exclusiveMinimum s).

Definition with_properties (p : list (string * schema)) (s : schema) : schema :=
  Schema (oneOf s) (anyOf s) (allOf s) (ref s) (type s) (maxItems s) (minItems s)
         (items s) (Some p) (maxLength s) (minLength s) (enum s) (pattern s)
         (format s) (maximum s) (minimum s) (exclusiveMaximum s) (exclusiveMinimum s).

Definition with_enum (e : list json) (s : schema) : schema :=
  Schema (oneOf s) (anyOf s) (allOf s) (ref s) (type s) (maxItems s) (minItems s)
         (items s) (properties s) (maxLength s) (minLength s) (Some e) (pattern s)
         (format s) (maximum s) (minimum s) (exclusiveMaximum s) (exclusiveMinimum s).

Definition with_maximum (n : Number.number) (s : schema) : schema :=
  Schema (oneOf s) (anyOf s) (allOf s) (ref s) (type s) (maxItems s) (minItems s)
         (items s) (properties s) (maxLength s) (minLength s) (enum s) (pattern s)
         (format s) (Some n) (minimum s) (exclusiveMaximum s) (exclusiveMinimum s).

Definition with_minimum (n : Number.number) (s : schema) : schema :=
  Schema (oneOf s) (anyOf s) (allOf s) (ref s) (type s) (maxItems s) (minItems s)
         (items s) (properties s) (maxLength s) (minLength s) (enum s) (pattern s)
         (format s) (maximum s) (Some n) (exclusiveMaximum s) (exclusiveMinimum s).

Definition with_exclusiveMaximum (n : Number.number) (s : schema) : schema :=
  Schema (oneOf s) (anyOf s) (allOf s) (ref s) (type s) (maxItems s) (minItems s)
         (items s) (properties s) (maxLength s) (minLength s) (enum s) (pattern s)
         (format s) (maximum s) (minimum s) (Some n) (exclusiveMinimum s).

Definition with_exclusiveMinimum (n : Number.number) (s : schema) : schema :=
  Schema (oneOf s) (anyOf s) (allOf s) (ref s) (type s) (maxItems s) (minItems s)
         (items s) (properties s) (maxLength s) (minLength s) (enum s) (pattern s)
         (format s) (maximum s) (minimum s) (exclusiveMaximum s) (Some n).

Record MediaType := {
  media_schema : option schema }.

Record ResponseSpec := {
  response_ref : option string;              (* "$ref" *)
  content : option (list (string * MediaType)) }.

Record ParameterSpec := {
  param_ref : option string;                 (* "$ref" *)
  param_in : option string;
  param_name : option string;
  param_required : option bool;
  param_schema : option schema }.

Record Operation := {
  op_parameters : option (list ParameterSpec);
  requestBody : option (list (string * MediaType));
  responses : option (list (string * ResponseSpec)) }.

(** [path[method]] reads [operations]. *)
Record PathItem := {
  path_parameters : option (list ParameterSpec);
  operations : list (string * Operation) }.

Record Components := {
  schemas : option (list (string * schema)) }.

Record OpenAPI := {
  paths : list (string * PathItem);
  components : option Components }.

(* ================================================================== *)
(** ** The test set ([testset.d.ts]) *)

Record Request := {
  request_headers : option (list (string * string));
  request_body : option json }.

Inductive ExpectedHeaders :=
| HeadersTemplate (template : string)
| HeadersObject (entries : list (string * json)).

Record Response := {
  response_status : option Number.number;
  response_headers : option ExpectedHeaders;
  response_body : option json }.

Record Invoke := {
  invoke_contextPath : option string;
  invoke_spec : option string;
  invoke_path : option string;
  invoke_method : option string;
  invoke_request : option Request;
  invoke_response : option Response }.

Record TestCase := {
  title : string;
  contextPath : option string;
  sequence : option (list Invoke) }.

Record TestSet := {
  testCases : option (list TestCase) }.

(** What the transport resolves to. *)
Record HttpResponse := {
  status : option Number.number;
  headers : list (string * string);
  body : json }.

(* ================================================================== *)
(** ** Exceptions

    One constructor per [throw] of the source, holding the values its
    message is built from.  [ThrownUndefined] is the value [undefined]
    thrown as it is: it is no [Error] object and has no [message]. *)

Inductive error :=
| InvalidSpecification                                      (* "Invalid specification." *)
| InvalidTestSet                                            (* "Invalid test set." *)
| InvalidInvoke (invoke : Invoke)                           (* "Invalid invoke." *)
| PathNotFound (path : string)                              (* "[..] is not found in the specification." *)
| InvalidMethod (method : string)                           (* "The method [..] is invalid." *)
| ParameterRequired (name : option string)                  (* "Parameter [..] is required." *)
| UnsupportedContentType (contentType : string)             (* "Response content type [..] is not supported." *)
| NoMediaType (contentType : string)                        (* "There is no corresponding definition ..." *)
| StatusDiffers (actual : option Number.number) (expected : Number.number) (body : json)
| HeadersDiffer (actual : list (string * string)) (expected : string)
| HeaderDiffers (actual : option string) (expected : json)
| BodyDiffers (actual : json) (expected : json)
| SchemaInvalid (s : schema)                                (* "Schema is invalid." *)
| ValidationError (s : schema) (data : json) (message : string) (key : option string)
| TypeError (what : string)                                 (* raised by the runtime *)
| JSONPathError (what : string)                             (* raised by the jsonpath package *)
| TransportError (what : string)                            (* a rejected request *)
| ThrownUndefined.

Definition has_message (e : error) : bool :=
  match e with
  | ThrownUndefined => false
  | _ => true
  end.

Inductive result (A : Type) :=
| Ok (value : A)
| Throw (e : error).

Arguments Ok {A} value.
Arguments Throw {A} e.

Definition bind {A B : Type} (r : result A) (k : A -> result B) : result B :=
  match r with
  | Ok a => k a
  | Throw e => Throw e
  end.

Declare Scope result_scope.
Delimit Scope result_scope with result.
Notation "x <- c ;; k" := (bind c (fun x => k))
  (at level 61, c at next level, right associativity) : result_scope.
Notation "c ;; k" := (bind c (fun _ => k))
  (at level 61, right associativity) : result_scope.
Local Open Scope result_scope.

(** [if (cond) throw e;] *)
Definition throwIf (cond : bool) (e : error) : result unit :=
  if cond then Throw e else Ok tt.

(** [try { ... } catch (e) { return false; } return true;] *)
Definition succeeds {A : Type} (r : result A) : bool :=
  match r with
  | Ok _ => true
  | Throw _ => false
  end.

Section Iteration.
Context {A : Type}.

(** [array.forEach(f)]: the first exception leaves the loop. *)
Fixpoint forEach (f : A -> result unit) (l : list A) : result unit :=
  match l with
  | [] => Ok tt
  | x :: rest => f x ;; forEach f rest
  end.

(** [Object.keys(array).forEach(key => f(key, array[key]))] *)
Fixpoint forEachIndex (f : string -> A -> result unit) (index : nat) (l : list A)
  : result unit :=
  match l with
  | [] => Ok tt
  | x :: rest => f (Str.of_nat index) x ;; forEachIndex f (S index) rest
  end.
End Iteration.

(* ================================================================== *)
(** ** The validator object and what it calls from outside *)

Record Validator := {
  spec : OpenAPI;
  testSet : option TestSet;
  verbose : bool }.

(** [new RegExp(source).test(subject)], the engine of the runtime. *)
Class RegExp := {
  RegExp_test : string -> string -> bool }.

(** The [format] keywords and the expressions that check them. *)
Definition formats : list (string * string) :=
  [ ("date-time", "^[0-9]{4}-[0-9]{2}-[0-9]{2}(T|t)[0-9]{2}:[0-9]{2}:[0-9]{2}(Z|z|(\+|-)[0-9]{2}:[0-9]{2})$");
    ("date", "^[0-9]{4}-[0-9]{2}-[0-9]{2}$");
    ("time", "^[0-9]{2}:[0-9]{2}:[0-9]{2}(Z|z|(\+|-)[0-9]{2}:[0-9]{2})$");
    ("duration", "^P(([0-9]{1,}[YMD])*T{0,1}([0-9]{1,}[HMS])*|[0-9]{1,}W)*$");
    ("email", "^[\w-\.]+@([\w-]+\.)+[\w-]{2,4}$");
    ("hostname", "^(?:(?:25[0-5]|2[0-4][0-9]|[01]?[0-9][0-9]?)\.){3}(?:25[0-5]|2[0-4][0-9]|[01]?[0-9][0-9]?)$|^(([a-zA-Z0-9]|[a-zA-Z0-9][a-zA-Z0-9\-]*[a-zA-Z0-9])\.)+([A-Za-z]|[A-Za-z][A-Za-z0-9\-]*[A-Za-z0-9])$");
    ("ipv4", "^((25[0-5]|(2[0-4]|1\d|[1-9]|)\d)\.?\b){4}$");
    ("ipv6", "^(([0-9a-fA-F]{1,4}:){7,7}[0-9a-fA-F]{1,4}|([0-9a-fA-F]{1,4}:){1,7}:|([0-9a-fA-F]{1,4}:){1,6}:[0-9a-fA-F]{1,4}|([0-9a-fA-F]{1,4}:){1,5}(:[0-9a-fA-F]{1,4}){1,2}|([0-9a-fA-F]{1,4}:){1,4}(:[0-9a-fA-F]{1,4}){1,3}|([0-9a-fA-F]{1,4}:){1,3}(:[0-9a-fA-F]{1,4}){1,4}|([0-9a-fA-F]{1,4}:){1,2}(:[0-9a-fA-F]{1,4}){1,5}|[0-9a-fA-F]{1,4}:((:[0-9a-fA-F]{1,4}){1,6})|:((:[0-9a-fA-F]{1,4}){1,7}|:)|fe80:(:[0-9a-fA-F]{0,4}){0,4}%[0-9a-zA-Z]{1,}|::(ffff(:0{1,4}){0,1}:){0,1}((25[0-5]|(2[0-4]|1{0,1}[0-9]){0,1}[0-9])\.){3,3}(25[0-5]|(2[0-4]|1{0,1}[0-9]){0,1}[0-9])|([0-9a-fA-F]{1,4}:){1,4}:((25[0-5]|(2[0-4]|1{0,1}[0-9]){0,1}[0-9])\.){3,3}(25[0-5]|(2[0-4]|1{0,1}[0-9]){0,1}[0-9]))$");
    ("uri", "^https?:\/\/(www\.)?[-a-zA-Z0-9@:%._\+~#=]{1,256}\.[a-zA-Z0-9()]{1,6}\b([-a-zA-Z0-9()@:%_\+.~#?&//=]*)$");
    ("uuid", "^[0-9a-fA-F]{8}-[0-9a-fA-F]{4}-[0-9a-fA-F]{4}-[0-9a-fA-F]{4}-[0-9a-fA-F]{12}$") ].

Definition componentPrefix : string := "#/components/schemas/".

(** [getComponent(path)] *)
Definition getComponent (this : Validator) (path : string) : option schema :=
  match components (spec this) with
  | None => None
  | Some c =>
      match schemas c with
      | None => None
      | Some components =>
          if Str.startsWith path componentPrefix then
            let componentName := Str.substring_from (String.length componentPrefix) path in
            if existsb (String.eqb componentName) (map fst components)
            then lookup componentName components
            else None
          else None
      end
  end.

(** [if (valueSchema["$ref"] != null) { let v = getComponent(..); if (v != null) valueSchema = v; }] *)
Definition resolveValueSchema (this : Validator) (valueSchema : schema) : schema :=
  match ref valueSchema with
  | Some path =>
      match getComponent this path with
      | Some _valueSchema => _valueSchema
      | None => valueSchema
      end
  | None => valueSchema
  end.

Section ValidateJson.
Context {engine : RegExp} (this : Validator).

(** The recursive calls of [validateJson]: on a branch of the node, with
    the same data, and on a part of the data. *)
Variable onBranch : schema -> option string -> bool -> result unit.
Variable onValue : json -> schema -> option string -> bool -> result unit.

(** Lines 528-579: [oneOf], else [anyOf], else [allOf]. *)
Definition validateComposition (s : schema) (key : option string) : result unit :=
  match oneOf s with
  | Some branches =>
      throwIf (List.length branches =? 0)%nat (SchemaInvalid s) ;;
      let result := existsb (fun _schema => succeeds (onBranch _schema key false)) branches in
      throwIf (negb result) ThrownUndefined
  | None =>
  match anyOf s with
  | Some branches =>
      throwIf (List.length branches =? 0)%nat (SchemaInvalid s) ;;
      let result := existsb (fun _schema => succeeds (onBranch _schema key false)) branches in
      throwIf (negb result) ThrownUndefined
  | None =>
  match allOf s with
  | Some branches =>
      throwIf (List.length branches =? 0)%nat (SchemaInvalid s) ;;
      let result := forallb (fun _schema => succeeds (onBranch _schema key false)) branches in
      throwIf (negb result) ThrownUndefined
  | None => Ok tt
  end end end.

(** Lines 581-587. *)
Definition resolveSchema (s : schema) : result schema :=
  match ref s with
  | Some path =>
      match getComponent this path with
      | None => Throw (SchemaInvalid s)
      | Some _schema => Ok _schema
      end
  | None => Ok s
  end.

Definition aboveMaximum (n : Number.number) (limit : option Number.number) : bool :=
  match limit with Some m => Number.gtb n m | None => false end.
Definition belowMinimum (n : Number.number) (limit : option Number.number) : bool :=
  match limit with Some m => Number.ltb n m | None => false end.
Definition atOrAboveMaximum (n : Number.number) (limit : option Number.number) : bool :=
  match limit with Some m => Number.geb n m | None => false end.

(** Lines 606-630. *)
Definition validateArray (s : schema) (data : json) (key : option string) : result unit :=
  match data with
  | JArr elements =>
      let length := Number.of_nat (List.length elements) in
      throwIf (aboveMaximum length (maxItems s))
        (ValidationError s data "The value is above the maximum length." key) ;;
      throwIf (belowMinimum length (minItems s))
        (ValidationError s data "The value is below the maximum length." key) ;;
      match items s with
      | Some valueSchema =>
          let valueSchema := resolveValueSchema this valueSchema in
          forEach (fun value => onValue value valueSchema None false) elements
      | None => Ok tt
      end
  | _ => Throw (ValidationError s data "Type mismatch." key)
  end.

(** Lines 636-649, the body of the loop over [Object.keys(data)]. *)
Definition validateProperty (s : schema) (key : string) (value : json) : result unit :=
  match properties s with
  | Some props =>
      match lookup key props with
      | None => Throw (ValidationError s value "Schema not found." (Some key))
      | Some valueSchema =>
          let valueSchema := resolveValueSchema this valueSchema in
          onValue value valueSchema (Some key) false
      end
  | None => Ok tt
  end.

(** Lines 632-650.  An array is an object too: its keys are its indices. *)
Definition validateObject (s : schema) (data : json) (key : option string) : result unit :=
  match data with
  | JObj entries => forEach (fun kv => validateProperty s (fst kv) (snd kv)) entries
  | JArr elements => forEachIndex (validateProperty s) 0 elements
  | _ => Throw (ValidationError s data "Type mismatch." key)
  end.

(** [schema.enum.includes(data)] for a string [data]. *)
Definition enumIncludes (values : list json) (str : string) : bool :=
  existsb (fun v => match v with JStr t => String.eqb t str | _ => false end) values.

Definition formatMismatch (fmt : string) (str : string) : bool :=
  existsb (fun entry => String.eqb fmt (fst entry) && negb (RegExp_test (snd entry) str))
          formats.

(** Lines 652-700. *)
Definition validateString (s : schema) (data : json) (key : option string)
           (enableCast : bool) : result unit :=
  data <- (if enableCast then
             match data with
             | JNull => Throw (TypeError "Cannot read properties of null (reading 'toString')")
             | _ => Ok (JStr (JS.toString data))
             end
           else Ok data) ;;
  match data with
  | JStr str =>
      let length := Number.of_nat (Str.length str) in
      throwIf (aboveMaximum length (maxLength s))
        (ValidationError s data "The value is above the maximum length." key) ;;
      throwIf (belowMinimum length (minLength s))
        (ValidationError s data "The value is below the minimum length." key) ;;
      throwIf (match enum s with Some values => negb (enumIncludes values str) | None => false end)
        (ValidationError s data "The value is not included in the available values." key) ;;
      throwIf (match pattern s with Some p => negb (RegExp_test p str) | None => false end)
        (ValidationError s data "The value does not follow format." key) ;;
      throwIf (match format s with Some fmt => formatMismatch fmt str | None => false end)
        (ValidationError s data "Format mismatch." None)
  | _ => Throw (ValidationError s data "Type mismatch" key)
  end.

(** Lines 708-727 and 734-753: the four bounds, in the order of the source. *)
Definition validateBounds (s : schema) (data : json) (n : Number.number)
           (key : option string) : result unit :=
  throwIf (aboveMaximum n (maximum s))
    (ValidationError s data "The value is above the maximum value." key) ;;
  throwIf (belowMinimum n (minimum s))
    (ValidationError s data "The value is below the minimum value." key) ;;
  throwIf (atOrAboveMaximum n (exclusiveMaximum s))
    (ValidationError s data "The value is above the maximum value." key) ;;
  throwIf (belowMinimum n (exclusiveMinimum s))
    (ValidationError s data "The value is below the minimum value." key).

(** Lines 702-727. *)
Definition validateNumber (s : schema) (data : json) (key : option string)
           (enableCast : bool) : result unit :=
  let data := if enableCast then JNum (JS.toNumber data) else data in
  match data with
  | JNum n => validateBounds s data n key
  | _ => Throw (ValidationError s data "Type mismatch." key)
  end.

(** Lines 729-753. *)
Definition validateInteger (s : schema) (data : json) (key : option string) : result unit :=
  match data with
  | JNum n =>
      throwIf (Str.includes (Number.toString n) ".")
        (ValidationError s data "Type mismatch." key) ;;
      validateBounds s data n key
  | _ => Throw (ValidationError s data "Type mismatch." key)
  end.

(** Lines 605-762: the chain on [schema.type]; an unknown type checks
    nothing. *)
Definition validateType (s : schema) (t : string) (data : json) (key : option string)
           (enableCast : bool) : result unit :=
  if String.eqb t "array" then validateArray s data key
  else if String.eqb t "object" then validateObject s data key
  else if String.eqb t "string" then validateString s data key enableCast
  else if String.eqb t "number" then validateNumber s data key enableCast
  else if String.eqb t "integer" then validateInteger s data key
  else if String.eqb t "boolean" then
    match data with
    | JBool _ => Ok tt
    | _ => Throw (ValidationError s data "Type mismatch." key)
    end
  else if String.eqb t "null" then
    match data with
    | JNull => Ok tt
    | _ => Throw (ValidationError s data "Type mismatch." key)
    end
  else Ok tt.

(** Lines 581-762: what follows the composition, [$ref] and [type]. *)
Definition validateOwn (data : json) (s : schema) (key : option string)
           (enableCast : bool) : result unit :=
  s <- resolveSchema s ;;
  match type s with
  | None => Throw (SchemaInvalid s)
  | Some t => validateType s t data key enableCast
  end.

(** The body of [validateJson(data, schema, key, enableCast)]. *)
Definition validateJsonBody (data : json) (s : schema) (key : option string)
           (enableCast : bool) : result unit :=
  validateComposition s key ;;
  validateOwn data s key enableCast.

End ValidateJson.

(** [validateJson]: the calls on branches keep the data and go down the
    node, the calls on elements and property values go down the data. *)
Fixpoint validateJson {engine : RegExp} (this : Validator) (data : json) {struct data}
  : schema -> option string -> bool -> result unit :=
  fix onBranch (s : schema) {struct s} : option string -> bool -> result unit :=
    fun key enableCast =>
      validateJsonBody this onBranch (validateJson this) data s key enableCast.

(* ================================================================== *)
(** ** The regular expressions of the expression resolver

    Each expression of lines 223-511 is a function on the characters of
    the subject, named after what it matches. *)

Module Pattern.

Definition lbrace : ascii := "{".
Definition rbrace : ascii := "}".

Inductive piece :=
| Text (c : ascii)
| Group (target : string).

(** The successive matches of [/{([^}]+)}/g]: [inside] holds, backwards,
    what follows an opening brace that is not closed yet. *)
Fixpoint scan (inside : option (list ascii)) (l : list ascii) : list piece :=
  match l with
  | [] =>
      match inside with
      | None => []
      | Some acc => map Text (lbrace :: rev acc)
      end
  | c :: rest =>
      match inside with
      | None => if Ascii.eqb c lbrace then scan (Some []) rest else Text c :: scan None rest
      | Some acc =>
          if Ascii.eqb c rbrace then
            match acc with
            | [] => Text lbrace :: Text rbrace :: scan None rest
            | _ => Group (Str.of_chars (rev acc)) :: scan None rest
            end
          else scan (Some (c :: acc)) rest
      end
  end.

Definition pieces (s : string) : list piece := scan None (Str.chars s).

Definition groupsOf (l : list piece) : list string :=
  flat_map (fun p => match p with Group t => [t] | Text _ => [] end) l.

Definition groups (s : string) : list string := groupsOf (pieces s).

(** [[a-zA-Z0-9_.*\(\)\[\]@<>=!]], the characters of a context path. *)
Definition is_path_char (c : ascii) : bool :=
  Str.is_alnum c || Str.is_one_of "_.*()[]@<>=!" c.

(** [[a-zA-Z0-9_.*\(\)\[\]@<>=!$]], the characters of an operand. *)
Definition is_operand_char (c : ascii) : bool :=
  is_path_char c || Ascii.eqb c "$".

(** [[=><!]] *)
Definition is_operator_char (c : ascii) : bool := Str.is_one_of "=><!" c.

Definition nonempty_all (p : ascii -> bool) (l : list ascii) : bool :=
  match l with
  | [] => false
  | _ => forallb p l
  end.

Definition is_blank (c : ascii) : bool := Ascii.eqb c " ".

(** [/^(operand+) ([=><!]+) (operand+)$/]: no class holds the space, so
    the two spaces of a match are the only ones of the subject. *)
Definition comparison (target : string) : option (string * string * string) :=
  let l := Str.chars target in
  let operand1 := Str.takeWhile (fun c => negb (is_blank c)) l in
  match Str.dropWhile (fun c => negb (is_blank c)) l with
  | _ :: l1 =>
      let operator := Str.takeWhile (fun c => negb (is_blank c)) l1 in
      match Str.dropWhile (fun c => negb (is_blank c)) l1 with
      | _ :: operand2 =>
          if nonempty_all is_operand_char operand1
             && nonempty_all is_operator_char operator
             && nonempty_all is_operand_char operand2
          then Some (Str.of_chars operand1, Str.of_chars operator, Str.of_chars operand2)
          else None
      | [] => None
      end
  | [] => None
  end.

(** [/^context\[([0-9]{1,})\]\.(path+)$/] *)
Definition contextReference (definition : string) : option (string * string) :=
  let l := Str.chars definition in
  if Str.starts_with (Str.chars "context[") l then
    let l1 := skipn 8 l in
    let index := Str.takeWhile Str.is_digit l1 in
    match index, Str.dropWhile Str.is_digit l1 with
    | _ :: _, "]"%char :: "."%char :: target =>
        if nonempty_all is_path_char target
        then Some (Str.of_chars index, Str.of_chars target)
        else None
    | _, _ => None
    end
  else None.

(** The end of the longest match of [.+}] at the head of [l]: the number
    of characters up to and including the last closing brace that no
    line terminator separates from the head, one character at least
    before it. *)
Fixpoint greedyClose (l : list ascii) (position : nat) (best : option nat) : option nat :=
  match l with
  | [] => best
  | c :: rest =>
      if Str.is_line_terminator l then best
      else greedyClose rest (S position)
             (if Ascii.eqb c rbrace && (1 <=? position)%nat then Some (S position) else best)
  end.

(** The first match of [/{.+}/]: the text before it and its length. *)
Fixpoint braced (before : list ascii) (l : list ascii) : option (list ascii * nat) :=
  match l with
  | [] => None
  | c :: rest =>
      if Ascii.eqb c lbrace then
        match greedyClose rest 0 None with
        | Some n => Some (rev before, S n)
        | None => braced (c :: before) rest
        end
      else braced (c :: before) rest
  end.

(** [/{.+}/.test(s)] *)
Definition hasBraces (s : string) : bool :=
  match braced [] (Str.chars s) with
  | Some _ => true
  | None => false
  end.

(** [s.replace(/{.+}/, replacement)] *)
Definition replaceBraces (s replacement : string) : string :=
  match braced [] (Str.chars s) with
  | Some (before, n) =>
      Str.of_chars (before ++ Str.chars replacement ++ skipn (List.length before + n) (Str.chars s))
  | None => s
  end.

(** [/^{.+:.+}$/.test(s)] *)
Definition isCredential (s : string) : bool :=
  match Str.chars s with
  | c :: rest =>
      match rev rest with
      | d :: inner =>
          Ascii.eqb c lbrace && Ascii.eqb d rbrace
          && Str.on_one_line (rev inner)
          && existsb (Ascii.eqb ":") (removelast (tl (rev inner)))
      | [] => false
      end
  | [] => false
  end.

(** [/^[0-9.]+$/.test(s)] *)
Definition isNumeric (s : string) : bool :=
  nonempty_all (fun c => Str.is_digit c || Ascii.eqb c ".") (Str.chars s).

Definition two_digits (a b : ascii) : option Z :=
  if Str.is_digit a && Str.is_digit b then Some (Number.digits_value [a; b]) else None.

(** The zone of a date-time: [west] for a [-] sign. *)
Record TimeZone := {
  west : bool; zoneHours : Z; zoneMinutes : Z }.

Record DateTime := {
  year : Z; month : Z; day : Z;
  hours : Z; minutes : Z; seconds : Z;
  zone : TimeZone }.

Definition timeZone (l : list ascii) : option TimeZone :=
  match l with
  | [z] =>
      if Ascii.eqb z "Z" || Ascii.eqb z "z"
      then Some {| west := false; zoneHours := 0; zoneMinutes := 0 |}
      else None
  | [sign; h1; h2; colon; m1; m2] =>
      if (Ascii.eqb sign "+" || Ascii.eqb sign "-") && Ascii.eqb colon ":" then
        match two_digits h1 h2, two_digits m1 m2 with
        | Some h, Some m =>
            Some {| west := Ascii.eqb sign "-"; zoneHours := h; zoneMinutes := m |}
        | _, _ => None
        end
      else None
  | _ => None
  end.

(** [/^[0-9]{4}-[0-9]{2}-[0-9]{2}(T|t)[0-9]{2}:[0-9]{2}:[0-9]{2}(Z|z|(\+|-)[0-9]{2}:[0-9]{2})$/] *)
Definition dateTime (s : string) : option DateTime :=
  match Str.chars s with
  | y1 :: y2 :: y3 :: y4 :: d1 :: mo1 :: mo2 :: d2 :: da1 :: da2 :: t
      :: h1 :: h2 :: c1 :: mi1 :: mi2 :: c2 :: s1 :: s2 :: z =>
      if forallb Str.is_digit [y1; y2; y3; y4]
         && Ascii.eqb d1 "-" && Ascii.eqb d2 "-"
         && (Ascii.eqb t "T" || Ascii.eqb t "t")
         && Ascii.eqb c1 ":" && Ascii.eqb c2 ":" then
        match two_digits mo1 mo2, two_digits da1 da2, two_digits h1 h2,
              two_digits mi1 mi2, two_digits s1 s2, timeZone z with
        | Some mo, Some da, Some h, Some mi, Some se, Some tz =>
            Some {| year := Number.digits_value [y1; y2; y3; y4];
                    month := mo; day := da;
                    hours := h; minutes := mi; seconds := se; zone := tz |}
        | _, _, _, _, _, _ => None
        end
      else None
  | _ => None
  end.

End Pattern.

(* ================================================================== *)
(** ** Built-in functions the resolver and the executor call *)

Module Builtin.

(** Days from 1970-01-01 to a day of the proleptic Gregorian calendar;
    a day past the end of its month counts on into the next one. *)
Definition daysFromCivil (y m d : Z) : Z :=
  let y := (if m <=? 2 then y - 1 else y)%Z in
  let era := (y / 400)%Z in
  let yoe := (y - era * 400)%Z in
  let mp := ((m + 9) mod 12)%Z in
  let doy := ((153 * mp + 2) / 5 + d - 1)%Z in
  let doe := (yoe * 365 + yoe / 4 - yoe / 100 + doy)%Z in
  (era * 146097 + doe - 719468)%Z.

(** Minutes east of UTC. *)
Definition zoneOffset (z : Pattern.TimeZone) : Z :=
  let m := (Pattern.zoneHours z * 60 + Pattern.zoneMinutes z)%Z in
  if Pattern.west z then (- m)%Z else m.

(** [new Date(s).getTime()] for a string the date-time expression
    accepts: milliseconds since the epoch, [NaN] for a field out of
    range. *)
Definition getTime (d : Pattern.DateTime) : Number.number :=
  let valid :=
    ((1 <=? Pattern.month d) && (Pattern.month d <=? 12)
     && (1 <=? Pattern.day d) && (Pattern.day d <=? 31)
     && ((Pattern.hours d <=? 23)
         || ((Pattern.hours d =? 24) && (Pattern.minutes d =? 0) && (Pattern.seconds d =? 0)))
     && (Pattern.minutes d <=? 59) && (Pattern.seconds d <=? 59)
     && (Pattern.zoneHours (Pattern.zone d) <=? 23)
     && (Pattern.zoneMinutes (Pattern.zone d) <=? 59))%Z in
  if valid then
    let days := daysFromCivil (Pattern.year d) (Pattern.month d) (Pattern.day d) in
    let local := (((days * 24 + Pattern.hours d) * 60 + Pattern.minutes d) * 60
                  + Pattern.seconds d)%Z in
    Number.of_Z ((local - zoneOffset (Pattern.zone d) * 60) * 1000)
  else Number.NaN.

Definition base64Alphabet : list ascii :=
  Str.chars "ABCDEFGHIJKLMNOPQRSTUVWXYZabcdefghijklmnopqrstuvwxyz0123456789+/".

Definition sextet (n : N) : ascii := nth (N.to_nat (n mod 64)) base64Alphabet "="%char.

(** [Buffer.from(s).toString("base64")] *)
Fixpoint base64 (l : list ascii) : list ascii :=
  match l with
  | [] => []
  | [a] =>
      let n := (Str.code a * 65536)%N in
      [sextet (n / 262144); sextet (n / 4096); "="%char; "="%char]
  | [a; b] =>
      let n := (Str.code a * 65536 + Str.code b * 256)%N in
      [sextet (n / 262144); sextet (n / 4096); sextet (n / 64); "="%char]
  | a :: b :: c :: rest =>
      let n := (Str.code a * 65536 + Str.code b * 256 + Str.code c)%N in
      sextet (n / 262144) :: sextet (n / 4096) :: sextet (n / 64) :: sextet n :: base64 rest
  end.

Definition toBase64 (s : string) : string := Str.of_chars (base64 (Str.chars s)).

Definition upper_hex (n : N) : ascii :=
  if (n <? 10)%N then ascii_of_N (48 + n) else ascii_of_N (55 + n).

Definition is_unreserved (c : ascii) : bool :=
  Str.is_alnum c || Str.is_one_of "-_.!~*'()" c.

(** [encodeURIComponent(value)] *)
Definition encodeURIComponent (value : json) : string :=
  Str.of_chars
    (flat_map (fun c => if is_unreserved c then [c]
                        else ["%"%char; upper_hex (Str.code c / 16); upper_hex (Str.code c mod 16)])
              (Str.chars (JS.toString value))).

End Builtin.

(** [JSONPath.query(object, path)] of the jsonpath package. *)
Class JSONPath := {
  JSONPath_query : json -> string -> result (list json) }.

(** [Http.request(method, path, headers, body)] of [http.js]: the
    transport answers from, and changes, the state of the world. *)
Class Http := {
  World : Type;
  Http_request : string -> string -> option (list (string * string)) -> option json ->
                 World -> result HttpResponse * World }.

(* ================================================================== *)
(** ** The expression resolver (lines 426-518) *)

Section Expressions.
Context {jsonpath : JSONPath}.

(** [context[index]] for the digits the expression captured: an array
    is indexed by the canonical form of a number only. *)
Definition contextAt (context : list json) (index : string) : option json :=
  let n := Z.to_nat (Number.digits_value (Str.chars index)) in
  if String.eqb index (Str.of_nat n) then nth_error context n else None.

(** [JSONPath.query] refuses anything but an object. *)
Definition query (object : option json) (path : string) : result (list json) :=
  match object with
  | Some o => JSONPath_query o path
  | None => Throw (JSONPathError "obj needs to be an object")
  end.

(** [replaceContext(definition, context)] *)
Definition replaceContext (definition : string) (context : list json) : result string :=
  match Pattern.contextReference definition with
  | Some (index, target) =>
      values <- query (contextAt context index) target ;;
      Ok (match values with
          | value :: _ => JS.toString value
          | [] => "null"
          end)
  | None => Ok definition
  end.

(** [replaceResponse(definition, response)] *)
Definition replaceResponse (definition : string) (response : json) : result json :=
  values <- query (Some response) definition ;;
  Ok (match values with
      | value :: _ => value
      | [] => JStr definition
      end).

(** [castAsComparable(data)] *)
Definition castAsComparable (data : json) : json :=
  if Pattern.isNumeric (JS.toString data) then JNum (JS.toNumber data)
  else match Pattern.dateTime (JS.toString data) with
       | Some d => JNum (Builtin.getTime d)
       | None => if JS.looseEquals data (JStr "null") then JNull else data
       end.

(** Lines 461-473: the comparison an operator stands for; an operator
    outside the list leaves the result [true]. *)
Definition compareOperands (operator : string) (operand1 operand2 : json) : bool :=
  if String.eqb operator "=" || String.eqb operator "==" then
    JS.looseEquals (castAsComparable operand1) (castAsComparable operand2)
  else if String.eqb operator "<" then
    JS.lessThan (castAsComparable operand1) (castAsComparable operand2)
  else if String.eqb operator "<=" then
    JS.lessOrEqual (castAsComparable operand1) (castAsComparable operand2)
  else if String.eqb operator ">" then
    JS.greaterThan (castAsComparable operand1) (castAsComparable operand2)
  else if String.eqb operator ">=" then
    JS.greaterOrEqual (castAsComparable operand1) (castAsComparable operand2)
  else if String.eqb operator "!=" then
    negb (JS.looseEquals (castAsComparable operand1) (castAsComparable operand2))
  else true.

(** Lines 454-476: the result of one [{...}] group. *)
Definition evalGroup (target : string) (context : list json) (response : json)
  : result bool :=
  match Pattern.comparison target with
  | Some (operand1, operator, operand2) =>
      operand1 <- replaceContext operand1 context ;;
      operand1 <- replaceResponse operand1 response ;;
      operand2 <- replaceContext operand2 context ;;
      operand2 <- replaceResponse operand2 response ;;
      Ok (compareOperands operator operand1 operand2)
  | None => Ok true
  end.

Fixpoint evalGroups (targets : list string) (context : list json) (response : json)
  : result (list bool) :=
  match targets with
  | [] => Ok []
  | target :: rest =>
      r <- evalGroup target context response ;;
      results <- evalGroups rest context response ;;
      Ok (r :: results)
  end.

(** [evalBrackets(definition, context, response)] *)
Definition evalBrackets (definition : option string) (context : list json) (response : json)
  : result bool :=
  match definition with
  | None => Ok false
  | Some definition =>
      results <- evalGroups (Pattern.groups definition) context response ;;
      Ok (forallb (fun entry => entry) results)
  end.

(** Lines 434-440: what replaces one group. *)
Definition replaceGroup (target : string) (context : list json) (response : option json)
  : result string :=
  target <- replaceContext target context ;;
  match response with
  | Some response =>
      target <- replaceResponse target response ;;
      Ok (JS.toString target)
  | None => Ok target
  end.

Fixpoint replacePieces (l : list Pattern.piece) (context : list json)
         (response : option json) : result (list ascii) :=
  match l with
  | [] => Ok []
  | Pattern.Text c :: rest =>
      tail <- replacePieces rest context response ;;
      Ok (c :: tail)
  | Pattern.Group target :: rest =>
      replacement <- replaceGroup target context response ;;
      tail <- replacePieces rest context response ;;
      Ok (Str.chars replacement ++ tail)
  end.

(** [replaceBrackets(definition, context, response)] *)
Definition replaceBrackets (definition : option string) (context : list json)
           (response : option json) : result (option string) :=
  match definition with
  | None => Ok None
  | Some definition =>
      l <- replacePieces (Pattern.pieces definition) context response ;;
      Ok (Some (Str.of_chars l))
  end.

End Expressions.

(** [stringifyObject(object)] *)
Definition stringifyObject (object : json) : string :=
  match object with
  | JNull => EmptyString
  | _ => JS.stringify object
  end.

(* ================================================================== *)
(** ** The canned specifications (the [StandardSpecs] class) *)

Module StandardSpecs.

Definition grantType : schema := with_enum [JStr "client_credentials"] (typed "string").

Definition tokenResponse : schema :=
  with_properties
    [ ("access_token", typed "string");
      ("token_type", typed "string");
      ("expires_in", with_minimum (Number.of_Z 0) (typed "number")) ]
    (typed "object").

(** [StandardSpecs.getSpec(key)] *)
Definition getSpec (key : string) : option PathItem :=
  if String.eqb key "oauth2.ClientCredentials" then
    Some {| path_parameters := None;
            operations :=
              [ ("post",
                 {| op_parameters := None;
                    requestBody :=
                      Some [ ("application/x-www-form-urlencoded",
                              {| media_schema :=
                                   Some (with_properties [("grant_type", grantType)]
                                                         (typed "object")) |}) ];
                    responses :=
                      Some [ ("200",
                              {| response_ref := None;
                                 content :=
                                   Some [ ("application/json",
                                           {| media_schema := Some tokenResponse |}) ] |}) ] |}) ] |}
  else None.

End StandardSpecs.

(* ================================================================== *)
(** ** The sequence executor (lines 138-424)

    What a run leaves behind: the world the transport acts on, the calls
    of [logger.writeLog] in order, and the [context] array of the test
    case in progress, which [invoke] extends in place.  The test set is a
    tree: no two steps share a request, so the headers a step rewrites
    and the properties it deletes from its body are seen by that step
    only. *)

Inductive LogEntry :=
| LogStarted (title : string)                  (* "Test [..] is started." *)
| LogRequest (method path : string)            (* the four request lines of verbose mode *)
             (headers : option (list (string * string))) (body : option json)
| LogResponse (response : HttpResponse)        (* the four response lines of verbose mode *)
| LogPass (method path : string)               (* "PASS .." *)
| LogNG (e : error).                           (* "NG " with the message, then the stack *)

Record Run {W : Type} := {
  world : W;
  log : list LogEntry;
  context : list json }.
Arguments Run W : clear implicits.

Definition writeLog {W : Type} (entry : LogEntry) (st : Run W) : Run W :=
  {| world := world st; log := log st ++ [entry]; context := context st |}.

Definition setWorld {W : Type} (w : W) (st : Run W) : Run W :=
  {| world := w; log := log st; context := context st |}.

Definition setContext {W : Type} (c : list json) (st : Run W) : Run W :=
  {| world := world st; log := log st; context := c |}.

(** [object[name]] and [delete object[name]] on a request body, which
    has these properties when it is an object (the indices and the
    [length] of an array or a string are not represented). *)
Definition getProperty (object : json) (name : string) : option json :=
  match object with
  | JObj entries => lookup name entries
  | _ => None
  end.

Definition deleteProperty (object : json) (name : string) : json :=
  match object with
  | JObj entries => JObj (delete name entries)
  | _ => object
  end.

(** [value != null] *)
Definition notNull (value : option json) : option json :=
  match value with
  | Some JNull | None => None
  | Some v => Some v
  end.

Definition isTrue (b : option bool) : bool :=
  match b with
  | Some true => true
  | _ => false
  end.

Definition placeholder (name : string) : string := ("{" ++ name ++ "}")%string.

Definition methods : list string :=
  ["get"; "post"; "patch"; "put"; "delete"; "option"; "head"].

Record PreparedRequest := {
  prepared_method : string;
  prepared_path : string;
  prepared_headers : option (list (string * string));
  prepared_body : option json;
  prepared_operation : Operation }.

Section Executor.
Context {engine : RegExp} {jsonpath : JSONPath} {http : Http}.
Variable this : Validator.

(** Lines 217-241: the [Authorization] header. *)
Definition authorize (requestHeaders : list (string * string)) (context : list json)
  : result (list (string * string)) :=
  let lower := lookup "authorization" requestHeaders in
  let upper := lookup "Authorization" requestHeaders in
  match (match lower with Some a => Some a | None => upper end) with
  | None => Ok requestHeaders
  | Some authorization =>
      if Str.startsWith authorization "Basic " then
        let credential := Str.trim (Str.substring_from 6 authorization) in
        if Pattern.isCredential credential then
          let inner := Str.of_chars (removelast (tl (Str.chars credential))) in
          let credential := Builtin.toBase64 inner in
          let replaced := Pattern.replaceBraces authorization credential in
          Ok (assign (match lower with Some _ => "authorization" | None => "Authorization" end)
                     replaced requestHeaders)
        else Ok requestHeaders
      else if Str.startsWith authorization "Bearer " then
        let credential := Str.trim (Str.substring_from 7 authorization) in
        replaced <- replaceBrackets (Some credential) context None ;;
        Ok (assign "authorization"
                   ("Bearer " ++ match replaced with Some r => r | None => "null" end)%string
                   requestHeaders)
      else Ok requestHeaders
  end.

(** Lines 256-258: [if (typeof value == "string") value = replaceBrackets(value, context)]. *)
Definition substituted (value : json) (context : list json) : result json :=
  match value with
  | JStr str =>
      replaced <- replaceBrackets (Some str) context None ;;
      Ok (match replaced with Some r => JStr r | None => JNull end)
  | _ => Ok value
  end.

(** Lines 279-285 and 324-330: the properties of a referenced component
    leave the body; on the path level they fill the path. *)
Fixpoint consume (keys : list string) (fill : bool) (requestBody : json) (requestPath : string)
  : json * string :=
  match keys with
  | [] => (requestBody, requestPath)
  | key :: rest =>
      match getProperty requestBody key with
      | Some value =>
          consume rest fill (deleteProperty requestBody key)
            (if fill
             then Str.replace requestPath (placeholder key) (Builtin.encodeURIComponent value)
             else requestPath)
      | None => consume rest fill requestBody requestPath
      end
  end.

(** Lines 250-287, one turn of the loop over [path.parameters]. *)
Definition pathParameter (context : list json) (parameter : ParameterSpec)
           (requestBody : option json) (requestPath : string)
  : result (option json * string) :=
  match param_ref parameter with
  | None =>
      match param_in parameter, param_name parameter with
      | Some place, Some name =>
          if String.eqb place "path" then
            match notNull requestBody with
            | Some object =>
                match getProperty object name with
                | Some value =>
                    value <- substituted value context ;;
                    match param_schema parameter with
                    | Some s => validateJson this value s (Some name) true
                    | None => Ok tt
                    end ;;
                    Ok (Some (deleteProperty object name),
                        Str.replace requestPath (placeholder name)
                                    (Builtin.encodeURIComponent value))
                | None =>
                    throwIf (isTrue (param_required parameter))
                            (ParameterRequired (Some name)) ;;
                    Ok (requestBody, requestPath)
                end
            | None =>
                throwIf (isTrue (param_required parameter)) (ParameterRequired (Some name)) ;;
                Ok (requestBody, requestPath)
            end
          else Ok (requestBody, requestPath)
      | _, _ => Ok (requestBody, requestPath)
      end
  | Some path =>
      match notNull requestBody, getComponent this path with
      | Some object, Some component =>
          match properties component with
          | Some props =>
              validateJson this object component None false ;;
              let '(object, requestPath) := consume (map fst props) true object requestPath in
              Ok (Some object, requestPath)
          | None => Ok (requestBody, requestPath)
          end
      | _, _ => Ok (requestBody, requestPath)
      end
  end.

Fixpoint pathParameters (context : list json) (parameters : list ParameterSpec)
         (requestBody : option json) (requestPath : string)
  : result (option json * string) :=
  match parameters with
  | [] => Ok (requestBody, requestPath)
  | parameter :: rest =>
      r <- pathParameter context parameter requestBody requestPath ;;
      pathParameters context rest (fst r) (snd r)
  end.

(** Lines 294-334, one turn of [operation.parameters.map]: the entry of
    the query string, [None] for [null], and the body that is left. *)
Definition queryParameter (context : list json) (parameter : ParameterSpec)
           (requestBody : option json) : result (option string * option json) :=
  match param_ref parameter with
  | None =>
      match param_in parameter, param_name parameter with
      | Some place, Some name =>
          if String.eqb place "query" then
            match notNull requestBody with
            | Some object =>
                match getProperty object name with
                | Some value =>
                    value <- substituted value context ;;
                    match param_schema parameter with
                    | Some s => validateJson this value s (Some name) true
                    | None => Ok tt
                    end ;;
                    Ok (Some (name ++ "=" ++ Builtin.encodeURIComponent value)%string,
                        Some (deleteProperty object name))
                | None =>
                    throwIf (isTrue (param_required parameter))
                            (ParameterRequired (Some name)) ;;
                    Ok (None, requestBody)
                end
            | None =>
                throwIf (isTrue (param_required parameter)) (ParameterRequired (Some name)) ;;
                Ok (None, requestBody)
            end
          else Ok (None, requestBody)
      | _, _ => Ok (None, requestBody)
      end
  | Some path =>
      match notNull requestBody, getComponent this path with
      | Some object, Some component =>
          match properties component with
          | Some props =>
              validateJson this object component None false ;;
              Ok (None, Some (fst (consume (map fst props) false object EmptyString)))
          | None => Ok (None, requestBody)
          end
      | _, _ => Ok (None, requestBody)
      end
  end.

Fixpoint queryParameters (context : list json) (parameters : list ParameterSpec)
         (requestBody : option json) : result (list string * option json) :=
  match parameters with
  | [] => Ok ([], requestBody)
  | parameter :: rest =>
      r <- queryParameter context parameter requestBody ;;
      rs <- queryParameters context rest (snd r) ;;
      Ok (match fst r with Some q => q :: fst rs | None => fst rs end, snd rs)
  end.

(** Lines 181-338: everything [invoke] does before it calls the
    transport. *)
Definition prepare (contextPath : string) (invoke : Invoke) (context : list json)
  : result PreparedRequest :=
  match invoke_path invoke, invoke_method invoke with
  | Some path, Some method =>
      let requestPath :=
        if negb (Str.startsWith path "http") then
          match invoke_contextPath invoke with
          | Some prefix => (prefix ++ path)%string
          | None => (contextPath ++ path)%string
          end
        else path in
      pathItem <-
        match lookup path (paths (spec this)) with
        | Some item => Ok item
        | None =>
            match (match invoke_spec invoke with
                   | Some key => StandardSpecs.getSpec key
                   | None => None
                   end) with
            | Some item => Ok item
            | None => Throw (PathNotFound path)
            end
        end ;;
      let method := Str.toLowerCase method in
      throwIf (negb (existsb (String.eqb method) methods)) (InvalidMethod method) ;;
      requestHeaders <-
        match invoke_request invoke with
        | Some request =>
            match request_headers request with
            | Some requestHeaders =>
                h <- authorize requestHeaders context ;; Ok (Some h)
            | None => Ok None
            end
        | None => Ok None
        end ;;
      let requestBody :=
        match invoke_request invoke with
        | Some request => request_body request
        | None => None
        end in
      r <- match path_parameters pathItem with
           | Some parameters => pathParameters context parameters requestBody requestPath
           | None => Ok (requestBody, requestPath)
           end ;;
      let requestBody := fst r in
      let requestPath := snd r in
      match lookup method (operations pathItem) with
      | None => Throw (TypeError "Cannot read properties of undefined (reading 'parameters')")
      | Some operation =>
          q <- match op_parameters operation with
               | Some parameters => queryParameters context parameters requestBody
               | None => Ok ([], requestBody)
               end ;;
          let queryString := Str.join "&" (fst q) in
          Ok {| prepared_method := method;
                prepared_path :=
                  if (0 <? String.length queryString)%nat
                  then (requestPath ++ "?" ++ queryString)%string
                  else requestPath;
                prepared_headers := requestHeaders;
                prepared_body := snd q;
                prepared_operation := operation |}
      end
  | _, _ => Throw (InvalidInvoke invoke)
  end.

(** Lines 356-387: the response against the contract. *)
Definition validateResponse (operation : Operation) (response : HttpResponse) : result unit :=
  match responses operation, status response with
  | Some declared, Some code =>
      let responseSpec :=
        match lookup (Number.toString code) declared with
        | Some r => Some r
        | None => lookup "default" declared
        end in
      match responseSpec with
      | Some responseSpec =>
          match response_ref responseSpec with
          | None =>
              match lookup "content-type" (headers response) with
              | Some responseContentType =>
                  match content responseSpec with
                  | None =>
                      Throw (TypeError "Cannot read properties of undefined (reading the content type)")
                  | Some mediaTypes =>
                      match lookup responseContentType mediaTypes with
                      | Some {| media_schema := Some s |} =>
                          let resolved :=
                            match ref s with
                            | Some path => getComponent this path
                            | None => Some s
                            end in
                          if Str.startsWith responseContentType "application/json" then
                            match resolved with
                            | Some s => validateJson this (body response) s None false
                            | None =>
                                Throw (TypeError "Cannot read properties of null (reading 'oneOf')")
                            end
                          else Throw (UnsupportedContentType responseContentType)
                      | _ => Throw (NoMediaType responseContentType)
                      end
                  end
              | None => Ok tt
              end
          | Some path =>
              match getComponent this path with
              | Some component => validateJson this (body response) component None false
              | None => Ok tt
              end
          end
      | None => Ok tt
      end
  | _, _ => Ok tt
  end.

(** Lines 391-395. *)
Definition checkStatus (expected : Number.number) (response : HttpResponse) : result unit :=
  throwIf (match status response with
           | Some actual => negb (Number.eqb expected actual)
           | None => true
           end)
          (StatusDiffers (status response) expected (body response)).

(** [response.headers] as the object the resolver queries. *)
Definition headersObject (l : list (string * string)) : json :=
  JObj (map (fun kv => (fst kv, JStr (snd kv))) l).

(** Lines 396-409. *)
Definition checkHeaders (expectedHeaders : ExpectedHeaders) (context : list json)
           (response : HttpResponse) : result unit :=
  match expectedHeaders with
  | HeadersTemplate template =>
      r <- evalBrackets (Some template) context (headersObject (headers response)) ;;
      throwIf (negb r) (HeadersDiffer (headers response) template)
  | HeadersObject entries =>
      forEach (fun kv =>
                 let actual := lookup (fst kv) (headers response) in
                 throwIf (match actual with
                          | Some a => negb (JS.looseEquals (snd kv) (JStr a))
                          | None => negb (JS.looseEquals (snd kv) JNull)
                          end)
                         (HeaderDiffers actual (snd kv)))
              entries
  end.

(** Lines 411-416.  [evalBrackets] calls [replace] on the expected
    body, which only a string has. *)
Definition checkBody (expectedBody : json) (context : list json) (responseBody : json)
  : result unit :=
  match expectedBody with
  | JStr template =>
      r <- evalBrackets (Some template) context responseBody ;;
      if negb r then Throw (BodyDiffers responseBody expectedBody)
      else if negb (Pattern.hasBraces template)
              && negb (String.eqb (stringifyObject responseBody)
                                  (stringifyObject expectedBody))
      then Throw (BodyDiffers responseBody expectedBody)
      else Ok tt
  | _ => Throw (TypeError "definition.replace is not a function")
  end.

(** Lines 389-418: the expectations of the test author. *)
Definition checkExpectations (invoke : Invoke) (context : list json)
           (response : HttpResponse) : result unit :=
  match invoke_response invoke with
  | Some testingResponse =>
      match response_status testingResponse with
      | Some expected => checkStatus expected response
      | None => Ok tt
      end ;;
      match response_headers testingResponse with
      | Some expectedHeaders => checkHeaders expectedHeaders context response
      | None => Ok tt
      end ;;
      match notNull (response_body testingResponse) with
      | Some expectedBody => checkBody expectedBody context (body response)
      | None => Ok tt
      end
  | None => Ok tt
  end.

Definition Step (A : Type) : Type := Run World -> result A * Run World.

(** Lines 181-420: one step of a sequence, up to [context.push]. *)
Definition invokeStep (contextPath : string) (invoke : Invoke) : Step unit :=
  fun st =>
    match prepare contextPath invoke (context st) with
    | Throw e => (Throw e, st)
    | Ok request =>
        let method := match invoke_method invoke with Some m => m | None => EmptyString end in
        let st :=
          if verbose this
          then writeLog (LogRequest method (prepared_path request)
                                    (prepared_headers request) (prepared_body request)) st
          else st in
        let '(answer, w) :=
          Http_request (prepared_method request) (prepared_path request)
                       (prepared_headers request) (prepared_body request) (world st) in
        let st := setWorld w st in
        match answer with
        | Throw e => (Throw e, st)
        | Ok response =>
            let st := if verbose this then writeLog (LogResponse response) st else st in
            match (validateResponse (prepared_operation request) response ;;
                   checkExpectations invoke (context st) response) with
            | Throw e => (Throw e, st)
            | Ok _ =>
                let st := writeLog (LogPass method (prepared_path request)) st in
                (Ok tt, setContext (context st ++ [body response]) st)
            end
        end
    end.

(** The steps from [sequence[index]] on: [index + 1 < sequence.length]
    holds when steps remain after the first. *)
Fixpoint invokeSteps (contextPath : string) (steps : list Invoke) : Step unit :=
  fun st =>
    match steps with
    | [] => (Throw (TypeError "Cannot read properties of undefined (reading 'path')"), st)
    | invoke :: rest =>
        match invokeStep contextPath invoke st with
        | (Throw e, st) => (Throw e, st)
        | (Ok _, st) =>
            match rest with
            | [] => (Ok tt, st)
            | _ :: _ => invokeSteps contextPath rest st
            end
        end
    end.

(** [invoke(contextPath, sequence, index, context)], the array
    [context] being the one of the run. *)
Definition invoke (contextPath : string) (sequence : list Invoke) (index : nat) : Step unit :=
  invokeSteps contextPath (skipn index sequence).

(** Lines 162-167: [try { await invoke(..) } catch (error) { .. }].  The
    handler reads [error.message], which a thrown [undefined] has not. *)
Definition caught (outcome : result unit * Run World) : result unit * Run World :=
  match outcome with
  | (Ok _, st) => (Ok tt, st)
  | (Throw e, st) =>
      if has_message e then (Ok tt, writeLog (LogNG e) st)
      else (Throw (TypeError "Cannot read properties of undefined (reading 'message')"), st)
  end.

(** The test cases from [testCases[index]] on. *)
Fixpoint executeCases (cases : list TestCase) : Step unit :=
  fun st =>
    match cases with
    | [] => (Throw (TypeError "Cannot read properties of undefined (reading 'sequence')"), st)
    | testCase :: rest =>
        match sequence testCase with
        | None | Some [] => (Ok tt, st)
        | Some steps =>
            let st := writeLog (LogStarted (title testCase)) st in
            let contextPath :=
              match contextPath testCase with
              | Some p => p
              | None => EmptyString
              end in
            match caught (invoke contextPath steps 0 (setContext [] st)) with
            | (Throw e, st) => (Throw e, st)
            | (Ok _, st) =>
                match rest with
                | [] => (Ok tt, st)
                | _ :: _ => executeCases rest st
                end
            end
        end
    end.

(** [executeTestCases(testCases, index)] *)
Definition executeTestCases (testCases : list TestCase) (index : nat) : Step unit :=
  executeCases (skipn index testCases).

(** [validate()] *)
Definition validate : Step unit :=
  fun st =>
    match testSet this with
    | Some {| testCases := Some (testCase :: rest) |} =>
        executeTestCases (testCase :: rest) 0 st
    | _ => (Throw InvalidTestSet, st)
    end.

End Executor.

(* ================================================================== *)
(** ** Reference collaborators for closed examples *)

(** A stand-in for the jsonpath package: the paths made of [$], member
    names ([name], [.name], a number for a name as in [10.0]) and
    subscripts [[index]].  It answers any other path with an exception. *)
Module MemberPath.

Inductive step :=
| Member (name : string)
| Subscript (index : nat).

Inductive mode :=
| Begin
| Next
| ExpectName
| Name (acc : list ascii)
| Numeral (acc : list ascii)
| Index (acc : list ascii).

Definition is_name_start (c : ascii) : bool :=
  Str.is_lower c || Str.is_upper c || Ascii.eqb c "_".
Definition is_name_char (c : ascii) : bool := is_name_start c || Str.is_digit c.

Definition member (acc : list ascii) : step := Member (Str.of_chars (rev acc)).

(** A numeral has no leading zero. *)
Definition is_numeral (acc : list ascii) : bool :=
  match rev acc with
  | "0"%char :: _ :: _ => false
  | _ => true
  end.

Fixpoint parse (m : mode) (l : list ascii) (steps : list step) : option (list step) :=
  match l with
  | [] =>
      match m with
      | Next => Some (rev steps)
      | Name acc => Some (rev (member acc :: steps))
      | Numeral acc => if is_numeral acc then Some (rev (member acc :: steps)) else None
      | _ => None
      end
  | c :: rest =>
      match m with
      | Begin =>
          if Ascii.eqb c "$" then parse Next rest steps
          else if is_name_start c then parse (Name [c]) rest steps
          else if Str.is_digit c then parse (Numeral [c]) rest steps
          else None
      | Next =>
          if Ascii.eqb c "." then parse ExpectName rest steps
          else if Ascii.eqb c "[" then parse (Index []) rest steps
          else None
      | ExpectName =>
          if is_name_start c then parse (Name [c]) rest steps
          else if Str.is_digit c then parse (Numeral [c]) rest steps
          else None
      | Name acc =>
          if is_name_char c then parse (Name (c :: acc)) rest steps
          else if Ascii.eqb c "." then parse ExpectName rest (member acc :: steps)
          else if Ascii.eqb c "[" then parse (Index []) rest (member acc :: steps)
          else None
      | Numeral acc =>
          if Str.is_digit c then parse (Numeral (c :: acc)) rest steps
          else if negb (is_numeral acc) then None
          else if Ascii.eqb c "." then parse ExpectName rest (member acc :: steps)
          else if Ascii.eqb c "[" then parse (Index []) rest (member acc :: steps)
          else None
      | Index acc =>
          if Str.is_digit c then parse (Index (c :: acc)) rest steps
          else if Ascii.eqb c "]" then
            match acc with
            | [] => None
            | _ => parse Next rest
                         (Subscript (Z.to_nat (Number.digits_value (rev acc))) :: steps)
            end
          else None
      end
  end.

Fixpoint follow (steps : list step) (value : json) : option json :=
  match steps with
  | [] => Some value
  | Member name :: rest =>
      match value with
      | JObj entries =>
          match lookup name entries with
          | Some v => follow rest v
          | None => None
          end
      | _ => None
      end
  | Subscript index :: rest =>
      match value with
      | JArr elements =>
          match nth_error elements index with
          | Some v => follow rest v
          | None => None
          end
      | _ => None
      end
  end.

Definition query (object : json) (path : string) : result (list json) :=
  if JS.is_object object then
    match parse Begin (Str.chars path) [] with
    | Some steps =>
        Ok (match follow steps object with
            | Some v => [v]
            | None => []
            end)
    | None => Throw (JSONPathError "Parse error")
    end
  else Throw (JSONPathError "obj needs to be an object").

Definition jsonpath : JSONPath := {| JSONPath_query := query |}.

End MemberPath.

(** A transport that answers with the outcomes it was given, in order. *)
Module Scripted.

Definition request (method path : string) (headers : option (list (string * string)))
           (body : option json) (script : list (result HttpResponse))
  : result HttpResponse * list (result HttpResponse) :=
  match script with
  | [] => (Throw (TransportError "no answer"), [])
  | answer :: rest => (answer, rest)
  end.

Definition http : Http :=
  {| World := list (result HttpResponse); Http_request := request |}.

End Scripted.

(** An engine for examples that hold no pattern and no format. *)
Definition acceptingEngine : RegExp := {| RegExp_test := fun _ _ => true |}.

(** A validator over a contract without paths and components. *)
Definition emptyContract : OpenAPI := {| paths := []; components := None |}.

Definition bareValidator : Validator :=
  {| spec := emptyContract; testSet := None; verbose := false |}.

(* ================================================================== *)
(** ** Notions the statements use *)

(** How many branches of a composition have to validate. *)
Inductive quantifier :=
| AtLeastOne
| Every.

(** The composition keyword [validateJson] reads: [oneOf], else [anyOf],
    else [allOf]. *)
Definition readComposition (s : schema) : option (quantifier * list schema) :=
  match oneOf s with
  | Some branches => Some (AtLeastOne, branches)
  | None =>
      match anyOf s with
      | Some branches => Some (AtLeastOne, branches)
      | None =>
          match allOf s with
          | Some branches => Some (Every, branches)
          | None => None
          end
      end
  end.

(** Closed inputs of the examples. *)
Definition stringChoice : schema := with_oneOf [typed "string"] emptySchema.

Definition numberWithChoice : schema := with_oneOf [typed "string"] (typed "number").

Definition namedContract : OpenAPI :=
  {| paths := [];
     components := Some {| schemas := Some [("Name", typed "string")] |} |}.

Definition namedValidator : Validator :=
  {| spec := namedContract; testSet := None; verbose := false |}.

Definition anyOperation : Operation :=
  {| op_parameters := None; requestBody := None; responses := None |}.

Definition stringOrNumber : schema :=
  with_oneOf [typed "string"; typed "number"] emptySchema.

Definition itemOperation : Operation :=
  {| op_parameters := None;
     requestBody := None;
     responses :=
       Some [ ("200",
               {| response_ref := None;
                  content := Some [ ("application/json",
                                     {| media_schema := Some stringOrNumber |}) ] |}) ] |}.

(** [GET /ping] without declared responses, [GET /item] answering with a
    string or a number. *)
Definition demoContract : OpenAPI :=
  {| paths :=
       [ ("/ping", {| path_parameters := None; operations := [("get", anyOperation)] |});
         ("/item", {| path_parameters := None; operations := [("get", itemOperation)] |}) ];
     components := None |}.

Definition demoValidator : Validator :=
  {| spec := demoContract; testSet := None; verbose := false |}.

Definition call (path : string) (expected : option Response) : Invoke :=
  {| invoke_contextPath := None;
     invoke_spec := None;
     invoke_path := Some path;
     invoke_method := Some "GET";
     invoke_request := None;
     invoke_response := expected |}.

Definition pong : HttpResponse :=
  {| status := Some (Number.of_Z 200); headers := []; body := JStr "pong" |}.

Definition flag : HttpResponse :=
  {| status := Some (Number.of_Z 200);
     headers := [("content-type", "application/json")];
     body := JBool true |}.

Definition emptyCase : TestCase :=
  {| title := "empty"; contextPath := None; sequence := Some [] |}.

Definition pingCase : TestCase :=
  {| title := "ping"; contextPath := None; sequence := Some [call "/ping" None] |}.

Definition itemCase : TestCase :=
  {| title := "item"; contextPath := None;
     sequence := Some [call "/item" None; call "/ping" None] |}.

Definition start (script : list (result HttpResponse)) : Run (list (result HttpResponse)) :=
  {| world := script; log := []; context := [] |}.

(** The run of the examples: the reference collaborators all together. *)
Definition demoRun := @executeTestCases acceptingEngine MemberPath.jsonpath Scripted.http.

(* ================================================================== *)
(** ** Notions the further statements use *)

(** The text a piece of a template was scanned from. *)
Definition written (p : Pattern.piece) : list ascii :=
  match p with
  | Pattern.Text c => [c]
  | Pattern.Group target => Pattern.lbrace :: Str.chars target ++ [Pattern.rbrace]
  end.

(** The text of a reference to the body of a step. *)
Definition contextPath_of (index : nat) (target : string) : string :=
  ("context[" ++ Str.of_nat index ++ "]." ++ target)%string.

(** One step of [Number.digits_value]. *)
Definition digitStep (acc : Z) (c : ascii) : Z := (acc * 10 + Number.digit_value c)%Z.

Definition hexValue (c : ascii) : N :=
  if Str.is_digit c then (Str.code c - 48)%N else (Str.code c - 87)%N.

(** Reading back what [JS.quote_char] writes, the way [JSON.parse] reads
    the inside of a string. *)
Fixpoint unquote (l : list ascii) : list ascii :=
  match l with
  | [] => []
  | c :: rest =>
      if (Str.code c =? 92)%N then
        match rest with
        | [] => []
        | x :: rest' =>
            if Ascii.eqb x "b" then ascii_of_N 8 :: unquote rest'
            else if Ascii.eqb x "t" then ascii_of_N 9 :: unquote rest'
            else if Ascii.eqb x "n" then ascii_of_N 10 :: unquote rest'
            else if Ascii.eqb x "f" then ascii_of_N 12 :: unquote rest'
            else if Ascii.eqb x "r" then ascii_of_N 13 :: unquote rest'
            else if Ascii.eqb x "u" then
              match rest' with
              | _ :: _ :: high :: low :: rest'' =>
                  ascii_of_N (16 * hexValue high + hexValue low) :: unquote rest''
              | _ => []
              end
            else x :: unquote rest'
        end
      else c :: unquote rest
  end.

(** A character other than the quotation mark. *)
Definition unquoted (c : ascii) : bool := negb (Ascii.eqb c JS.dquote).

(** The titles of the test cases a log shows as started, and the number
    of steps it shows as passed. *)
Definition startedTitles (l : list LogEntry) : list string :=
  flat_map (fun entry => match entry with LogStarted t => [t] | _ => [] end) l.

Definition passed (l : list LogEntry) : nat :=
  List.length (filter (fun entry => match entry with LogPass _ _ => true | _ => false end) l).

(* ================================================================== *)
(** ** The command line ([cli.js], lines 12-50) *)

Module Cli.

(** The four variables the loop over [process.argv] fills. *)
Record Options := {
  specFilePath : option string;
  testSetFilePath : option string;
  logSettingFilePath : option string;
  verboseLog : bool }.

Definition initial : Options :=
  {| specFilePath := None; testSetFilePath := None; logSettingFilePath := None;
     verboseLog := false |}.

(** Lines 33-39. *)
Definition store (key value : string) (o : Options) : Options :=
  if String.eqb key "spec" then
    {| specFilePath := Some value; testSetFilePath := testSetFilePath o;
       logSettingFilePath := logSettingFilePath o; verboseLog := verboseLog o |}
  else if String.eqb key "testcase" then
    {| specFilePath := specFilePath o; testSetFilePath := Some value;
       logSettingFilePath := logSettingFilePath o; verboseLog := verboseLog o |}
  else if String.eqb key "log" then
    {| specFilePath := specFilePath o; testSetFilePath := testSetFilePath o;
       logSettingFilePath := Some value; verboseLog := verboseLog o |}
  else o.

(** Lines 19-40, the loop from [arguments[i]] on: a key takes the
    argument after it as its value, whatever that is; the last key
    without one is dropped. *)
Fixpoint parseArguments (arguments : list string) (o : Options) : Options :=
  match arguments with
  | [] => o
  | argument :: rest =>
      if Str.startsWith argument "--" && (1 <? String.length argument)%nat then
        let key := Str.substring_from 2 argument in
        if String.eqb key "verbose" then
          parseArguments rest
            {| specFilePath := specFilePath o; testSetFilePath := testSetFilePath o;
               logSettingFilePath := logSettingFilePath o; verboseLog := true |}
        else
          match rest with
          | value :: rest => parseArguments rest (store key value o)
          | [] => o
          end
      else parseArguments rest o
  end.

(** What the program goes on to do. *)
Inductive action :=
| Usage
| Validate (specFilePath testSetFilePath : string) (logSettingFilePath : option string)
           (verboseLog : bool).

(** Lines 17-50, from [process.argv]. *)
Definition main (argv : list string) : action :=
  let o := parseArguments (skipn 2 argv) initial in
  match specFilePath o, testSetFilePath o with
  | Some specFile, Some testSetFile =>
      Validate specFile testSetFile (logSettingFilePath o) (verboseLog o)
  | _, _ => Usage
  end.

End Cli.

(* ================================================================== *)
(** ** Closed inputs of the further examples *)

Definition stringList : schema :=
  Schema None None None None (Some "array") None None (Some (typed "string")) None
         None None None None None None None None None.

(** The bounds of one code unit, and two texts of one code unit and several
    bytes: U+00E9 and the line separator U+2028. *)
Definition oneUnit : schema :=
  Schema None None None None (Some "string") None None None None
         (Some (Number.of_nat 1)) (Some (Number.of_nat 1)) None None None None None None None.

Definition accented : string :=
  String (ascii_of_N 195) (String (ascii_of_N 169) EmptyString).

Definition lineSeparator : string :=
  String (ascii_of_N 226) (String (ascii_of_N 128) (String (ascii_of_N 168) EmptyString)).

Definition nameReference : schema := with_ref "#/components/schemas/Name" emptySchema.

Definition danglingReference : schema := with_ref "#/components/schemas/Missing" emptySchema.

Definition queryOfQ : ParameterSpec :=
  {| param_ref := None; param_in := Some "query"; param_name := Some "q";
     param_required := None; param_schema := None |}.

Definition tokenCall : Invoke :=
  {| invoke_contextPath := None;
     invoke_spec := Some "oauth2.ClientCredentials";
     invoke_path := Some "/token";
     invoke_method := Some "POST";
     invoke_request := None;
     invoke_response := None |}.

Definition tokenAnswer : HttpResponse :=
  {| status := Some (Number.of_Z 200);
     headers := [("content-type", "application/json")];
     body := JObj [("access_token", JStr "abc")] |}.

(** A step that passes, and a run of two cases of which the second
    fails at its first step. *)
Definition pingOutcome :=
  @invoke acceptingEngine MemberPath.jsonpath Scripted.http demoValidator
          EmptyString [call "/ping" None] 0 (start [Ok pong]).

Definition demoOutcome :=
  demoRun demoValidator [pingCase; itemCase] 0 (start [Ok pong]).

(* ================================================================== *)
(** ** Results and loops *)

Lemma succeeds_seq (a b : result unit) :
  succeeds (a ;; b) = succeeds a && succeeds b.
Proof. destruct a; reflexivity. Qed.

Lemma succeeds_throwIf (cond : bool) (e : error) :
  succeeds (throwIf cond e) = negb cond.
Proof. destruct cond; reflexivity. Qed.

Lemma succeeds_Ok (r : result unit) : succeeds r = true <-> r = Ok tt.
Proof. destruct r as [[]|]; simpl; split; congruence. Qed.

Lemma succeeds_forEach {A : Type} (f : A -> result unit) (l : list A) :
  succeeds (forEach f l) = forallb (fun x => succeeds (f x)) l.
Proof.
  induction l as [|x l IH]; simpl; [reflexivity|].
  now rewrite succeeds_seq, IH.
Qed.

(* ================================================================== *)
(** ** Numbers *)

Lemma compare_refl (v : Number.number) :
  Number.compare v v = None \/ Number.compare v v = Some Eq.
Proof.
  destruct v as [|[]|m e]; simpl; auto.
  right. now rewrite Z.compare_refl.
Qed.

Lemma ltb_irrefl (v : Number.number) : Number.ltb v v = false.
Proof. unfold Number.ltb. now destruct (compare_refl v) as [-> | ->]. Qed.

Lemma gtb_irrefl (v : Number.number) : Number.gtb v v = false.
Proof. unfold Number.gtb. now destruct (compare_refl v) as [-> | ->]. Qed.

Lemma geb_refl (v : Number.number) : v <> Number.NaN -> Number.geb v v = true.
Proof.
  unfold Number.geb. destruct v as [|[]|m e]; simpl; try congruence.
  now rewrite Z.compare_refl.
Qed.

(* ================================================================== *)
(** ** The schema validator *)

Section ValidatorFacts.
Context {engine : RegExp} (this : Validator).

(** [validateJson] is its body, the recursive calls being itself. *)
Lemma validateJson_unfold data s key enableCast :
  validateJson this data s key enableCast
  = validateJsonBody this (validateJson this data) (validateJson this) data s key enableCast.
Proof. destruct data; destruct s; reflexivity. Qed.

Lemma validateComposition_none onBranch s key :
  readComposition s = None -> validateComposition onBranch s key = Ok tt.
Proof.
  unfold readComposition, validateComposition.
  destruct (oneOf s); [discriminate|].
  destruct (anyOf s); [discriminate|].
  destruct (allOf s); [discriminate|]. reflexivity.
Qed.

Lemma succeeds_validateComposition onBranch s key q branches :
  readComposition s = Some (q, branches) -> branches <> [] ->
  succeeds (validateComposition onBranch s key)
  = match q with
    | AtLeastOne => existsb (fun b => succeeds (onBranch b key false)) branches
    | Every => forallb (fun b => succeeds (onBranch b key false)) branches
    end.
Proof.
  unfold readComposition, validateComposition. intros H Hne.
  destruct (oneOf s) as [l|].
  { injection H as <- <-. destruct l; [congruence|]. cbn [List.length Nat.eqb throwIf bind].
    rewrite succeeds_throwIf. now rewrite negb_involutive. }
  destruct (anyOf s) as [l|].
  { injection H as <- <-. destruct l; [congruence|]. cbn [List.length Nat.eqb throwIf bind].
    rewrite succeeds_throwIf. now rewrite negb_involutive. }
  destruct (allOf s) as [l|]; [|discriminate].
  injection H as <- <-. destruct l; [congruence|]. cbn [List.length Nat.eqb throwIf bind].
  rewrite succeeds_throwIf. now rewrite negb_involutive.
Qed.

End ValidatorFacts.

Section CompositionClaims.
Context {engine : RegExp} (this : Validator).

(** C1 (as the code has it).  For a node that has a type, its own or
    that of the component its [$ref] names, and whose composition
    keyword, the one [validateJson] reads, holds a non-empty array:
    under [oneOf] or [anyOf] the validation succeeds exactly when at
    least one branch validates the value and the checks of the type
    accept it; under [allOf] exactly when every branch validates it and
    the checks of the type accept it. *)
Theorem composition_succeeds data s s' t key enableCast q branches :
  readComposition s = Some (q, branches) ->
  branches <> [] ->
  resolveSchema this s = Ok s' ->
  type s' = Some t ->
  (succeeds (validateJson this data s key enableCast) = true <->
   match q with
   | AtLeastOne =>
       exists b, In b branches /\ succeeds (validateJson this data b key false) = true
   | Every =>
       forall b, In b branches -> succeeds (validateJson this data b key false) = true
   end
   /\ succeeds (validateType this (validateJson this) s' t data key enableCast) = true).
Proof.
  intros Hread Hne Hr Ht. rewrite validateJson_unfold. unfold validateJsonBody.
  rewrite succeeds_seq.
  rewrite (succeeds_validateComposition (validateJson this data) s key q branches Hread Hne).
  unfold validateOwn. rewrite Hr. cbn [bind]. rewrite Ht.
  rewrite andb_true_iff. destruct q.
  - rewrite existsb_exists. tauto.
  - rewrite forallb_forall. tauto.
Qed.

(** C5 (as the code has it).  A node with no [type], no composition
    keyword and no [$ref] raises "Schema is invalid." whatever the data;
    so does a node whose composition keyword, the one [validateJson]
    reads, holds an empty array. *)
Theorem invalid_definition data s key enableCast :
  (oneOf s = None /\ anyOf s = None /\ allOf s = None /\ type s = None /\ ref s = None)
  \/ oneOf s = Some []
  \/ (oneOf s = None /\ anyOf s = Some [])
  \/ (oneOf s = None /\ anyOf s = None /\ allOf s = Some []) ->
  validateJson this data s key enableCast = Throw (SchemaInvalid s).
Proof.
  rewrite validateJson_unfold. unfold validateJsonBody, validateComposition.
  intros [(H1 & H2 & H3 & Ht & Hr) | [H1 | [(H1 & H2) | (H1 & H2 & H3)]]].
  - rewrite H1, H2, H3. cbn [bind]. unfold validateOwn, resolveSchema.
    rewrite Hr. cbn [bind]. now rewrite Ht.
  - now rewrite H1.
  - now rewrite H1, H2.
  - now rewrite H1, H2, H3.
Qed.

(** C4 (as the code has it).  For a value that is no array and a node
    without composition keyword that, once its own [$ref] is resolved,
    has type [object], the validation fails exactly when the value is
    no object, or the node has [properties] and some key of the value
    has no entry there or a value that fails the schema of its entry.
    A node without [properties] accepts every key. *)
Theorem object_fails data s s' key enableCast :
  readComposition s = None ->
  resolveSchema this s = Ok s' ->
  type s' = Some "object" ->
  (forall elements, data <> JArr elements) ->
  (succeeds (validateJson this data s key enableCast) = false <->
   match data with
   | JObj entries =>
       exists props, properties s' = Some props /\
       exists k v, In (k, v) entries /\
         match lookup k props with
         | None => True
         | Some valueSchema =>
             succeeds (validateJson this v (resolveValueSchema this valueSchema)
                                    (Some k) false) = false
         end
   | _ => True
   end).
Proof.
  intros Hc Hr Ht Harr. rewrite validateJson_unfold. unfold validateJsonBody.
  rewrite (validateComposition_none _ _ _ Hc). cbn [bind].
  unfold validateOwn. rewrite Hr. cbn [bind]. rewrite Ht.
  unfold validateType. cbn. unfold validateObject.
  destruct data as [| | | |elements|entries]; simpl; try (split; [trivial|reflexivity]).
  { now elim (Harr elements). }
  clear Harr. rewrite succeeds_forEach. unfold validateProperty.
  destruct (properties s') as [props|].
  - split.
    + intro H. exists props. split; [reflexivity|].
      induction entries as [|[k v] entries IH]; [discriminate|].
      simpl in H. apply andb_false_iff in H. destruct H as [H|H].
      * exists k, v. split; [now left|]. destruct (lookup k props); auto.
      * destruct (IH H) as (k' & v' & Hin & Hk). exists k', v'. split; [now right|auto].
    + intros (props' & Heq & k & v & Hin & Hk). injection Heq as <-.
      apply not_true_is_false. intro Hall. rewrite forallb_forall in Hall.
      specialize (Hall _ Hin). simpl in Hall.
      destruct (lookup k props); [congruence|discriminate].
  - split.
    + intro H. exfalso.
      induction entries as [|x entries IH]; simpl in H; [discriminate|auto].
    + intros (props & Heq & _). discriminate.
Qed.

(** C6 (what the code does at the bound).  A number equal to the
    [exclusiveMinimum] of a [number] node passes: line 724 compares with
    [<] where line 719, for [exclusiveMaximum], compares with [>=]. *)
Theorem exclusiveMinimum_accepts_bound (v : Number.number) key enableCast :
  validateJson this (JNum v) (with_exclusiveMinimum v (typed "number")) key enableCast
  = Ok tt.
Proof.
  rewrite validateJson_unfold.
  assert (H : validateJsonBody this (validateJson this (JNum v)) (validateJson this) (JNum v)
                (with_exclusiveMinimum v (typed "number")) key enableCast
              = validateBounds (with_exclusiveMinimum v (typed "number")) (JNum v) v key)
    by now destruct enableCast.
  rewrite H. unfold validateBounds. simpl. now rewrite ltb_irrefl.
Qed.

(** The bounds that behave as documented: [minimum] and [maximum]
    include the bound, [exclusiveMaximum] excludes it. *)
Lemma minimum_accepts_bound (v : Number.number) key :
  validateJson this (JNum v) (with_minimum v (typed "number")) key false = Ok tt.
Proof.
  rewrite validateJson_unfold. cbn. unfold validateNumber, validateBounds. simpl.
  now rewrite ltb_irrefl.
Qed.

Lemma maximum_accepts_bound (v : Number.number) key :
  validateJson this (JNum v) (with_maximum v (typed "number")) key false = Ok tt.
Proof.
  rewrite validateJson_unfold. cbn. unfold validateNumber, validateBounds. simpl.
  now rewrite gtb_irrefl.
Qed.

Lemma exclusiveMaximum_rejects_bound (v : Number.number) key :
  v <> Number.NaN ->
  succeeds (validateJson this (JNum v) (with_exclusiveMaximum v (typed "number")) key false)
  = false.
Proof.
  intro Hv. rewrite validateJson_unfold. cbn. unfold validateNumber, validateBounds. simpl.
  now rewrite geb_refl.
Qed.

End CompositionClaims.

(** A node of type [number] that carries [oneOf]: the branch validates
    the string, the node refuses it for its type. *)
Lemma composition_with_type_fails :
  succeeds (@validateJson acceptingEngine bareValidator (JStr "a") (typed "string") None false)
  = true
  /\ @validateJson acceptingEngine bareValidator (JStr "a") numberWithChoice None false
     = Throw (ValidationError numberWithChoice (JStr "a") "Type mismatch." None).
Proof. split; reflexivity. Qed.

(** Without a type the node raises "Schema is invalid." after its branch
    has validated the value; with no branch validating it, what is thrown
    is [undefined]. *)
Lemma composition_without_type_raises :
  @validateJson acceptingEngine bareValidator (JStr "a") stringChoice None false
  = Throw (SchemaInvalid stringChoice)
  /\ @validateJson acceptingEngine bareValidator (JBool true) stringChoice None false
     = Throw ThrownUndefined.
Proof. split; reflexivity. Qed.

Lemma composition_succeeds_witness :
  succeeds (@validateJson acceptingEngine bareValidator (JStr "a")
              (with_oneOf [typed "string"] (typed "string")) None false) = true.
Proof.
  apply (@composition_succeeds acceptingEngine bareValidator (JStr "a")
           (with_oneOf [typed "string"] (typed "string"))
           (with_oneOf [typed "string"] (typed "string")) "string" None false
           AtLeastOne [typed "string"]).
  - reflexivity.
  - discriminate.
  - reflexivity.
  - reflexivity.
  - split.
    + exists (typed "string"). split; [now left | reflexivity].
    + reflexivity.
Defined.

(** A node with [$ref] only validates against the component; an empty
    [anyOf] behind a non-empty [oneOf] is not read. *)
Lemma reference_node_validates :
  @validateJson acceptingEngine namedValidator (JStr "a")
     (with_ref "#/components/schemas/Name" emptySchema) None false = Ok tt
  /\ @validateJson acceptingEngine bareValidator (JStr "a")
       (with_anyOf [] (with_oneOf [typed "string"] (typed "string"))) None false = Ok tt.
Proof. split; reflexivity. Qed.

Lemma invalid_definition_witness :
  @validateJson acceptingEngine bareValidator (JStr "a") emptySchema None false
  = Throw (SchemaInvalid emptySchema).
Proof.
  apply (@invalid_definition acceptingEngine bareValidator (JStr "a") emptySchema None false).
  left. repeat split; reflexivity.
Defined.

(** An unknown key under a node without [properties] passes; an empty
    object fails under a node whose [oneOf] it does not satisfy. *)
Lemma object_claim_fails :
  @validateJson acceptingEngine bareValidator (JObj [("x", JNull)]) (typed "object") None false
  = Ok tt
  /\ succeeds (@validateJson acceptingEngine bareValidator (JObj [])
                 (with_oneOf [typed "string"] (with_properties [] (typed "object")))
                 None false) = false.
Proof. split; reflexivity. Qed.

(** An array is of type ["object"] for line 632: its keys are its
    indices, and an empty one has none to check. *)
Lemma array_taken_for_object :
  @validateJson acceptingEngine bareValidator (JArr [])
     (with_properties [] (typed "object")) None false = Ok tt
  /\ succeeds (@validateJson acceptingEngine bareValidator (JArr [JNull])
                 (with_properties [] (typed "object")) None false) = false.
Proof. split; reflexivity. Qed.

Lemma object_fails_witness :
  succeeds (@validateJson acceptingEngine bareValidator (JObj [("x", JNull)])
              (with_properties [] (typed "object")) None false) = false.
Proof.
  apply (@object_fails acceptingEngine bareValidator (JObj [("x", JNull)])
           (with_properties [] (typed "object")) (with_properties [] (typed "object"))
           None false).
  - reflexivity.
  - reflexivity.
  - reflexivity.
  - discriminate.
  - exists []. split; [reflexivity|].
    exists "x", JNull. split; [now left | exact I].
Defined.

(* ================================================================== *)
(** ** The expression resolver *)

Lemma looseEquals_null (v : json) : JS.looseEquals JNull v = true <-> v = JNull.
Proof. destruct v; simpl; split; congruence. Qed.

(** A string operand is equal to the literal ["null"] only when it is
    that literal. *)
Lemma null_literal_among_strings (s : string) :
  castAsComparable (JStr s) = JNull <-> s = "null".
Proof.
  unfold castAsComparable. cbn [JS.toString].
  destruct (Pattern.isNumeric s) eqn:Hn.
  { split; [discriminate|]. intros ->. vm_compute in Hn. discriminate. }
  destruct (Pattern.dateTime s) eqn:Hd.
  { split; [discriminate|]. intros ->. vm_compute in Hd. discriminate. }
  cbn [JS.looseEquals]. destruct (String.eqb_spec s "null") as [->|Hne].
  - tauto.
  - split; [discriminate | contradiction].
Qed.

(** The projection of a number is a number, that of a boolean the
    boolean. *)
Lemma number_projection (n : Number.number) :
  exists m, castAsComparable (JNum n) = JNum m.
Proof.
  unfold castAsComparable.
  destruct (Pattern.isNumeric (JS.toString (JNum n))); [eauto|].
  destruct (Pattern.dateTime (JS.toString (JNum n))); [eauto|].
  assert (H : JS.looseEquals (JNum n) (JStr "null") = false).
  { cbn [JS.looseEquals]. change (JS.toNumber (JStr "null")) with Number.NaN.
    cbn [JS.toNumber]. unfold Number.eqb. now destruct n. }
  rewrite H. eauto.
Qed.

Lemma boolean_projection (b : bool) : castAsComparable (JBool b) = JBool b.
Proof. now destruct b. Qed.

(** C7 (as the code has it).  Under the comparable projection ["10"]
    equals ["10.0"] for [=], as numbers; the first instant of 2024 is
    less than the same instant a day later for [<], as the milliseconds
    since the epoch, whatever the zone they are written in; the literal
    ["null"], whose projection is [null], equals [null] and the string
    ["null"], and no other string, no number and no boolean. *)
Theorem comparable_projection :
  compareOperands "=" (JStr "10") (JStr "10.0") = true
  /\ compareOperands "=" (JStr "10") (JStr "10.1") = false
  /\ castAsComparable (JStr "2024-01-01T00:00:00Z") = JNum (Number.of_Z 1704067200000)
  /\ castAsComparable (JStr "2024-01-02T00:00:00Z") = JNum (Number.of_Z 1704153600000)
  /\ compareOperands "<" (JStr "2024-01-01T00:00:00Z") (JStr "2024-01-02T00:00:00Z") = true
  /\ compareOperands "<" (JStr "2024-01-02T00:00:00Z") (JStr "2024-01-01T00:00:00Z") = false
  /\ compareOperands "<" (JStr "2024-01-01T00:30:00+01:00") (JStr "2023-12-31T23:45:00Z") = true
  /\ castAsComparable (JStr "null") = JNull
  /\ compareOperands "=" (JStr "null") JNull = true
  /\ (forall s : string, compareOperands "=" (JStr "null") (JStr s) = true <-> s = "null")
  /\ (forall n : Number.number, compareOperands "=" (JStr "null") (JNum n) = false)
  /\ (forall b : bool, compareOperands "=" (JStr "null") (JBool b) = false).
Proof.
  repeat split; try reflexivity.
  - intro H. change (JS.looseEquals JNull (castAsComparable (JStr s)) = true) in H.
    now apply null_literal_among_strings, looseEquals_null.
  - intro H. change (JS.looseEquals JNull (castAsComparable (JStr s)) = true).
    now apply looseEquals_null, null_literal_among_strings.
  - intro n. change (JS.looseEquals JNull (castAsComparable (JNum n)) = false).
    destruct (number_projection n) as [m ->]. reflexivity.
  - intro b. change (JS.looseEquals JNull (castAsComparable (JBool b)) = false).
    now rewrite boolean_projection.
Qed.

(** The claim as it is written fails: a string ["null"] that the
    response holds is no [null], and equals the literal. *)
Lemma null_text_equals_null_literal :
  JStr "null" <> JNull
  /\ compareOperands "=" (JStr "null") (JStr "null") = true
  /\ @evalBrackets MemberPath.jsonpath (Some "{name = null}") []
       (JObj [("name", JStr "null")]) = Ok true.
Proof. repeat split; [discriminate | reflexivity..]. Qed.

(** So does an array whose string form is that text. *)
Lemma null_literal_equals_array :
  compareOperands "=" (JStr "null") (JArr [JStr "null"]) = true.
Proof. reflexivity. Qed.

Section ResolverClaims.
Context {jsonpath : JSONPath}.

(** C8.  With [{"foo":"bar"}] at [context[0]], and jsonpath answering the
    path [foo] on it with its member, the template ["{context[0].foo}"]
    becomes the string [bar]. *)
Theorem context_reference_substituted (rest : list json) :
  JSONPath_query (JObj [("foo", JStr "bar")]) "foo" = Ok [JStr "bar"] ->
  replaceBrackets (Some "{context[0].foo}") (JObj [("foo", JStr "bar")] :: rest) None
  = Ok (Some "bar").
Proof.
  intro Hq. unfold replaceBrackets.
  change (Pattern.pieces "{context[0].foo}") with [Pattern.Group "context[0].foo"].
  cbn [replacePieces]. unfold replaceGroup, replaceContext.
  change (Pattern.contextReference "context[0].foo") with (Some ("0", "foo")).
  cbn [contextAt]. change (contextAt (JObj [("foo", JStr "bar")] :: rest) "0")
    with (Some (JObj [("foo", JStr "bar")])).
  cbn [query]. rewrite Hq. reflexivity.
Qed.

Lemma evalGroups_malformed (targets : list string) context response :
  (forall target, In target targets -> Pattern.comparison target = None) ->
  evalGroups targets context response = Ok (repeat true (List.length targets)).
Proof.
  induction targets as [|target targets IH]; intro H; [reflexivity|].
  cbn [evalGroups]. unfold evalGroup at 1.
  rewrite (H target) by now left. cbn [bind].
  rewrite IH by (intros; apply H; now right). reflexivity.
Qed.

Lemma forallb_repeat_true (n : nat) : forallb (fun entry : bool => entry) (repeat true n) = true.
Proof. induction n; simpl; auto. Qed.

Lemma evalGroup_malformed (target : string) context response :
  Pattern.comparison target = None -> evalGroup target context response = Ok true.
Proof. intro H. unfold evalGroup. now rewrite H. Qed.

Lemma evalBrackets_malformed (definition : string) context response :
  (forall target, In target (Pattern.groups definition) -> Pattern.comparison target = None) ->
  evalBrackets (Some definition) context response = Ok true.
Proof.
  intro H. unfold evalBrackets. rewrite evalGroups_malformed by exact H.
  cbn [bind]. now rewrite forallb_repeat_true.
Qed.

(** C10.  A group that is no comparison counts as [true]; a template
    all of whose groups are such evaluates to [true], whatever the
    context and the response. *)
Theorem malformed_groups_pass (definition : string) context response :
  (forall target, In target (Pattern.groups definition) -> Pattern.comparison target = None) ->
  (forall target, In target (Pattern.groups definition) ->
                  evalGroup target context response = Ok true)
  /\ evalBrackets (Some definition) context response = Ok true.
Proof.
  intro H. split.
  - intros target Hin. apply evalGroup_malformed. now apply H.
  - now apply evalBrackets_malformed.
Qed.

End ResolverClaims.

Lemma context_reference_substituted_witness :
  @replaceBrackets MemberPath.jsonpath (Some "{context[0].foo}")
     [JObj [("foo", JStr "bar")]] None = Ok (Some "bar").
Proof.
  apply (@context_reference_substituted MemberPath.jsonpath []).
  reflexivity.
Defined.

(** The projection at work in a template: operands read from the
    response, with the stand-in for jsonpath. *)
Lemma projection_in_template :
  @evalBrackets MemberPath.jsonpath
     (Some "{10 = 10.0}{created < updated}{deleted = null}{created != null}") []
     (JObj [("created", JStr "2024-01-01T00:00:00Z");
            ("updated", JStr "2024-01-02T00:00:00Z");
            ("deleted", JNull)])
  = Ok true.
Proof. reflexivity. Qed.

Lemma malformed_groups_pass_witness :
  @evalBrackets MemberPath.jsonpath (Some "{id=42}") [] (JObj [("id", JStr "7")]) = Ok true.
Proof.
  apply (@malformed_groups_pass MemberPath.jsonpath "{id=42}" [] (JObj [("id", JStr "7")])).
  intros target [<- | []]. reflexivity.
Defined.

(* ================================================================== *)
(** ** Templates without braces

    [/{.+}/] finds nothing in a template only if every group of
    [/{([^}]+)}/g] holds a line terminator, and then no group is a
    comparison. *)

Ltac each_ascii c :=
  let b0 := fresh in let b1 := fresh in let b2 := fresh in let b3 := fresh in
  let b4 := fresh in let b5 := fresh in let b6 := fresh in let b7 := fresh in
  destruct c as [b0 b1 b2 b3 b4 b5 b6 b7];
  destruct b0, b1, b2, b3, b4, b5, b6, b7; vm_compute; congruence.

(** No character of a comparison begins a line terminator. *)
Lemma comparison_char_on_line (c : ascii) (rest : list ascii) :
  Pattern.is_operand_char c || Pattern.is_operator_char c || Pattern.is_blank c = true ->
  Str.is_line_terminator (c :: rest) = false.
Proof. each_ascii c. Qed.

(** A character of the ASCII range ends no line terminator. *)
Lemma line_terminator_before_ascii (c : ascii) (l rest : list ascii) :
  (Str.code c <? 128)%N = true ->
  l <> [] ->
  Str.is_line_terminator (l ++ c :: rest) = Str.is_line_terminator l.
Proof.
  intros Hc Hl. apply N.ltb_lt in Hc.
  destruct l as [|x [|y [|z l]]]; [congruence| | |reflexivity]; cbn [app Str.is_line_terminator].
  - replace (Str.code c =? 128)%N with false by (symmetry; apply N.eqb_neq; lia).
    now destruct rest.
  - replace (Str.code c =? 168)%N with false by (symmetry; apply N.eqb_neq; lia).
    replace (Str.code c =? 169)%N with false by (symmetry; apply N.eqb_neq; lia).
    now rewrite andb_false_r.
Qed.

Lemma on_one_line_app (c : ascii) (l rest : list ascii) :
  (Str.code c <? 128)%N = true ->
  Str.on_one_line (l ++ c :: rest) = Str.on_one_line l && Str.on_one_line (c :: rest).
Proof.
  intro Hc. induction l as [|x l IH]; [reflexivity|].
  change ((x :: l) ++ c :: rest) with (x :: (l ++ c :: rest)).
  cbn [Str.on_one_line]. rewrite IH.
  change (x :: (l ++ c :: rest)) with ((x :: l) ++ c :: rest).
  rewrite (line_terminator_before_ascii c (x :: l) rest Hc) by discriminate.
  now rewrite andb_assoc.
Qed.

Lemma takeWhile_dropWhile (p : ascii -> bool) (l : list ascii) :
  Str.takeWhile p l ++ Str.dropWhile p l = l.
Proof.
  induction l as [|c l IH]; simpl; [reflexivity|].
  destruct (p c); simpl; [now rewrite IH | reflexivity].
Qed.

Lemma dropWhile_head (p : ascii -> bool) (l : list ascii) c rest :
  Str.dropWhile p l = c :: rest -> p c = false.
Proof.
  induction l as [|x l IH]; simpl; [discriminate|].
  destruct (p x) eqn:Hx; [exact IH|]. intro H. injection H as <- _. exact Hx.
Qed.

Lemma nonempty_all_forallb (p : ascii -> bool) (l : list ascii) :
  Pattern.nonempty_all p l = true -> forallb p l = true.
Proof. destruct l; [discriminate | auto]. Qed.

Lemma on_line_forallb (p : ascii -> bool) (l : list ascii) :
  (forall c rest, p c = true -> Str.is_line_terminator (c :: rest) = false) ->
  forallb p l = true -> Str.on_one_line l = true.
Proof.
  intros Hp. induction l as [|c l IH]; [reflexivity|].
  cbn [forallb Str.on_one_line].
  intro H. apply andb_prop in H. destruct H as [Hc Hl].
  now rewrite (Hp c l Hc), IH.
Qed.

Lemma forallb_weaker (p q : ascii -> bool) (l : list ascii) :
  (forall c, p c = true -> q c = true) -> forallb p l = true -> forallb q l = true.
Proof.
  intros Hpq. rewrite !forallb_forall. intros H c Hc. apply Hpq, H, Hc.
Qed.

Lemma chars_of_chars (l : list ascii) : Str.chars (Str.of_chars l) = l.
Proof. apply list_ascii_of_string_of_list_ascii. Qed.

(** A comparison lies on one line. *)
Lemma comparison_on_line (target : string) :
  Pattern.comparison target <> None ->
  Str.on_one_line (Str.chars target) = true.
Proof.
  unfold Pattern.comparison. set (l := Str.chars target).
  set (p := fun c => negb (Pattern.is_blank c)).
  set (q := fun c => Pattern.is_operand_char c || Pattern.is_operator_char c
                     || Pattern.is_blank c).
  destruct (Str.dropWhile p l) as [|sp l1] eqn:H1; [congruence|].
  destruct (Str.dropWhile p l1) as [|sp2 operand2] eqn:H2; [congruence|].
  destruct (Pattern.nonempty_all Pattern.is_operand_char (Str.takeWhile p l)) eqn:Ha;
    [|simpl; congruence].
  destruct (Pattern.nonempty_all Pattern.is_operator_char (Str.takeWhile p l1)) eqn:Hb;
    [|simpl; congruence].
  destruct (Pattern.nonempty_all Pattern.is_operand_char operand2) eqn:Hc;
    [|simpl; congruence].
  intros _.
  assert (Hl : l = Str.takeWhile p l ++ sp :: Str.takeWhile p l1 ++ sp2 :: operand2).
  { rewrite <- H2, takeWhile_dropWhile, <- H1, takeWhile_dropWhile. reflexivity. }
  assert (Hsp : Pattern.is_blank sp = true).
  { apply dropWhile_head in H1. unfold p in H1. now apply negb_false_iff in H1. }
  assert (Hsp2 : Pattern.is_blank sp2 = true).
  { apply dropWhile_head in H2. unfold p in H2. now apply negb_false_iff in H2. }
  apply (on_line_forallb q); [intros c rest; apply comparison_char_on_line|].
  rewrite Hl, forallb_app. cbn [forallb]. rewrite forallb_app. cbn [forallb].
  rewrite (forallb_weaker Pattern.is_operand_char q _
             ltac:(intros c H; unfold q; now rewrite H)
             (nonempty_all_forallb _ _ Ha)).
  rewrite (forallb_weaker Pattern.is_operator_char q _
             ltac:(intros c H; unfold q; rewrite H; now rewrite orb_true_r)
             (nonempty_all_forallb _ _ Hb)).
  rewrite (forallb_weaker Pattern.is_operand_char q _
             ltac:(intros c H; unfold q; now rewrite H)
             (nonempty_all_forallb _ _ Hc)).
  unfold q. rewrite Hsp, Hsp2. now rewrite !orb_true_r.
Qed.

Lemma greedyClose_keeps (l : list ascii) : forall position n,
  Pattern.greedyClose l position (Some n) <> None.
Proof.
  induction l as [|c l IH]; intros position n; cbn [Pattern.greedyClose]; [discriminate|].
  destruct (Str.is_line_terminator (c :: l)); [discriminate|].
  destruct (Ascii.eqb c Pattern.rbrace && (1 <=? position)%nat); apply IH.
Qed.

Lemma greedyClose_finds (g : list ascii) : forall rest position best,
  Str.on_one_line g = true ->
  1 <= position + List.length g ->
  Pattern.greedyClose (g ++ Pattern.rbrace :: rest) position best <> None.
Proof.
  induction g as [|c g IH]; intros rest position best Hg Hlen.
  - cbn [app Pattern.greedyClose List.length] in *.
    change (Str.is_line_terminator (Pattern.rbrace :: rest)) with false.
    change (Ascii.eqb Pattern.rbrace Pattern.rbrace) with true.
    replace (1 <=? position)%nat with true by (symmetry; apply Nat.leb_le; lia).
    apply greedyClose_keeps.
  - cbn [Str.on_one_line] in Hg. apply andb_prop in Hg. destruct Hg as [Hc Hg].
    apply negb_true_iff in Hc.
    change ((c :: g) ++ Pattern.rbrace :: rest) with (c :: (g ++ Pattern.rbrace :: rest)).
    cbn [Pattern.greedyClose].
    change (c :: (g ++ Pattern.rbrace :: rest)) with ((c :: g) ++ Pattern.rbrace :: rest).
    rewrite (line_terminator_before_ascii Pattern.rbrace (c :: g) rest eq_refl)
      by discriminate.
    rewrite Hc.
    apply IH; [exact Hg | cbn [List.length] in Hlen; lia].
Qed.

Lemma braced_none (l : list ascii) : forall before before',
  Pattern.braced before l = None -> Pattern.braced before' l = None.
Proof.
  induction l as [|c l IH]; intros before before'; simpl; [reflexivity|].
  destruct (Ascii.eqb c Pattern.lbrace).
  - destruct (Pattern.greedyClose l 0 None); [discriminate|]. apply IH.
  - apply IH.
Qed.

Lemma groupsOf_texts (l : list ascii) : Pattern.groupsOf (map Pattern.Text l) = [].
Proof. induction l; simpl; auto. Qed.

Lemma scan_groups_off_line (l : list ascii) : forall inside before,
  Pattern.braced before l = None ->
  match inside with
  | Some acc => Pattern.greedyClose (rev acc ++ l) 0 None = None
  | None => True
  end ->
  forall target, In target (Pattern.groupsOf (Pattern.scan inside l)) ->
                 Str.on_one_line (Str.chars target) = false.
Proof.
  induction l as [|c l IH]; intros inside before Hb Hin target Ht.
  - destruct inside; simpl in Ht; [|contradiction].
    change (Pattern.groupsOf (map Pattern.Text (Pattern.lbrace :: rev l))) with
      (Pattern.groupsOf (map Pattern.Text (rev l))) in Ht.
    rewrite groupsOf_texts in Ht. contradiction.
  - assert (Hrest : Pattern.braced before l = None).
    { simpl in Hb. destruct (Ascii.eqb c Pattern.lbrace).
      - destruct (Pattern.greedyClose l 0 None); [discriminate|].
        now apply braced_none with (before := c :: before).
      - now apply braced_none with (before := c :: before). }
    destruct inside as [acc|]; simpl in Ht.
    + destruct (Ascii.eqb c Pattern.rbrace) eqn:Hc.
      * apply Ascii.eqb_eq in Hc. subst c. destruct acc as [|a acc].
        -- simpl in Ht. now apply (IH None before Hrest I).
        -- simpl in Ht. destruct Ht as [<- | Ht]; [|now apply (IH None before Hrest I)].
           rewrite chars_of_chars.
           match goal with |- ?x = false => destruct x eqn:Hl end; [|reflexivity].
           exfalso. revert Hin. change (rev (a :: acc)) with (rev acc ++ [a]).
           apply greedyClose_finds; [exact Hl|].
           rewrite length_app. simpl. lia.
      * apply (IH (Some (c :: acc)) before Hrest); [|exact Ht].
        simpl. now rewrite <- app_assoc.
    + destruct (Ascii.eqb c Pattern.lbrace) eqn:Hc.
      * apply (IH (Some []) before Hrest); [|exact Ht].
        simpl. simpl in Hb. rewrite Hc in Hb.
        now destruct (Pattern.greedyClose l 0 None).
      * simpl in Ht. now apply (IH None before Hrest I).
Qed.

Lemma no_braces_no_comparison (template : string) :
  Pattern.hasBraces template = false ->
  forall target, In target (Pattern.groups template) -> Pattern.comparison target = None.
Proof.
  unfold Pattern.hasBraces. intros H target Hin.
  destruct (Pattern.braced [] (Str.chars template)) eqn:Hb; [discriminate|].
  pose proof (scan_groups_off_line (Str.chars template) None [] Hb I target Hin) as Hl.
  destruct (Pattern.comparison target) eqn:Hc; [|reflexivity].
  assert (Hne : Pattern.comparison target <> None) by congruence.
  apply comparison_on_line in Hne. congruence.
Qed.

(* ================================================================== *)
(** ** The sequence executor *)

Section ExecutorFacts.
Context {engine : RegExp} {jsonpath : JSONPath} {http : Http}.
Variable this : Validator.

(** [invoke] and [executeTestCases] as the source writes them, by the
    index. *)
Lemma skipn_nth {A : Type} (l : list A) : forall index,
  skipn index l
  = match nth_error l index with
    | Some x => x :: skipn (S index) l
    | None => []
    end.
Proof.
  induction l as [|x l IH]; intros [|index]; simpl; try reflexivity.
  apply IH.
Qed.

Lemma skipn_nil_iff {A : Type} (l : list A) index :
  skipn index l = [] <-> (index <? List.length l)%nat = false.
Proof.
  rewrite Nat.ltb_ge. revert index.
  induction l as [|x l IH]; intros [|index]; simpl; split; intro H;
    try reflexivity; try lia; try discriminate.
  - apply IH in H. lia.
  - apply IH. lia.
Qed.

Lemma invoke_unfold contextPath sequence index st :
  invoke this contextPath sequence index st
  = match nth_error sequence index with
    | None => (Throw (TypeError "Cannot read properties of undefined (reading 'path')"), st)
    | Some step =>
        match invokeStep this contextPath step st with
        | (Throw e, st') => (Throw e, st')
        | (Ok _, st') =>
            if (index + 1 <? List.length sequence)%nat
            then invoke this contextPath sequence (index + 1) st'
            else (Ok tt, st')
        end
    end.
Proof.
  unfold invoke. rewrite (skipn_nth sequence index).
  destruct (nth_error sequence index) as [step|]; [|reflexivity].
  cbn [invokeSteps]. destruct (invokeStep this contextPath step st) as [[[]|e] st']; [|reflexivity].
  replace (index + 1) with (S index) by lia.
  destruct (skipn (S index) sequence) eqn:Hs.
  - apply skipn_nil_iff in Hs. now rewrite Hs.
  - destruct (S index <? List.length sequence)%nat eqn:Hlt; [reflexivity|].
    apply skipn_nil_iff in Hlt. congruence.
Qed.

Lemma executeTestCases_unfold testCases index st :
  executeTestCases this testCases index st
  = match nth_error testCases index with
    | None =>
        (Throw (TypeError "Cannot read properties of undefined (reading 'sequence')"), st)
    | Some testCase =>
        match sequence testCase with
        | None | Some [] => (Ok tt, st)
        | Some steps =>
            match caught (invoke this
                            (match contextPath testCase with Some p => p | None => EmptyString end)
                            steps 0
                            (setContext [] (writeLog (LogStarted (title testCase)) st))) with
            | (Throw e, st') => (Throw e, st')
            | (Ok _, st') =>
                if (index + 1 <? List.length testCases)%nat
                then executeTestCases this testCases (index + 1) st'
                else (Ok tt, st')
            end
        end
    end.
Proof.
  unfold executeTestCases. rewrite (skipn_nth testCases index).
  destruct (nth_error testCases index) as [testCase|]; [|reflexivity].
  cbn [executeCases]. destruct (sequence testCase) as [[|step steps]|]; try reflexivity.
  destruct (caught _) as [[[]|e] st']; [|reflexivity].
  replace (index + 1) with (S index) by lia.
  destruct (skipn (S index) testCases) eqn:Hs.
  - apply skipn_nil_iff in Hs. now rewrite Hs.
  - destruct (S index <? List.length testCases)%nat eqn:Hlt; [reflexivity|].
    apply skipn_nil_iff in Hlt. congruence.
Qed.

(** A test case without steps ends the run: [executeTestCases] returns
    before it looks at [index + 1]. *)
Lemma skipped_case_returns testCases index testCase st :
  nth_error testCases index = Some testCase ->
  sequence testCase = None \/ sequence testCase = Some [] ->
  executeTestCases this testCases index st = (Ok tt, st).
Proof.
  intros Hn Hs. rewrite executeTestCases_unfold, Hn.
  now destruct Hs as [-> | ->].
Qed.

(** A step that raises leaves [context] as it was. *)
Lemma failed_step_keeps_context contextPath step st e st' :
  invokeStep this contextPath step st = (Throw e, st') ->
  context st' = context st.
Proof.
  unfold invokeStep. destruct (prepare this contextPath step (context st)) as [request|e0].
  - destruct (Http_request _ _ _ _ _) as [[response|e1] w].
    + destruct (validateResponse this _ response ;; checkExpectations step _ response)
        as [[]|e2]; intro H; [discriminate|].
      injection H as _ <-. now destruct (verbose this).
    + intro H. injection H as _ <-. now destruct (verbose this).
  - intro H. now injection H as _ <-.
Qed.

(** A step that passes appends the body of its response. *)
Lemma passed_step_appends contextPath step st st' :
  invokeStep this contextPath step st = (Ok tt, st') ->
  exists response request,
    prepare this contextPath step (context st) = Ok request
    /\ fst (Http_request (prepared_method request) (prepared_path request)
                         (prepared_headers request) (prepared_body request)
                         (world (if verbose this
                                 then writeLog (LogRequest
                                        (match invoke_method step with
                                         | Some m => m | None => EmptyString end)
                                        (prepared_path request) (prepared_headers request)
                                        (prepared_body request)) st
                                 else st)))
       = Ok response
    /\ context st' = context st ++ [body response].
Proof.
  unfold invokeStep. destruct (prepare this contextPath step (context st)) as [request|e0];
    [|discriminate].
  destruct (Http_request _ _ _ _ _) as [[response|e1] w] eqn:Hreq; [|discriminate].
  destruct (validateResponse this _ response ;; checkExpectations step _ response)
    as [[]|e2]; [|discriminate].
  intro H. injection H as <-. exists response, request.
  split; [reflexivity|]. split; [now rewrite Hreq|].
  now destruct (verbose this).
Qed.

(** After a step that raises no later step of the sequence runs: the
    run is left as the step left it. *)
Lemma failed_step_ends_sequence contextPath sequence index step st e st' :
  nth_error sequence index = Some step ->
  invokeStep this contextPath step st = (Throw e, st') ->
  invoke this contextPath sequence index st = (Throw e, st').
Proof. intros Hn Hs. now rewrite invoke_unfold, Hn, Hs. Qed.

(** After a step that passes, the next step runs on the extended
    [context]. *)
Lemma passed_step_continues contextPath sequence index step st st' :
  nth_error sequence index = Some step ->
  invokeStep this contextPath step st = (Ok tt, st') ->
  index + 1 < List.length sequence ->
  invoke this contextPath sequence index st
  = invoke this contextPath sequence (index + 1) st'.
Proof.
  intros Hn Hs Hlt. rewrite invoke_unfold, Hn, Hs.
  apply Nat.ltb_lt in Hlt. now rewrite Hlt.
Qed.

(** An [Error] raised in a test case is logged and the next test case
    runs. *)
Lemma error_caught_at_case_boundary testCases index testCase step steps st e st' :
  nth_error testCases index = Some testCase ->
  sequence testCase = Some (step :: steps) ->
  invoke this (match contextPath testCase with Some p => p | None => EmptyString end)
         (step :: steps) 0 (setContext [] (writeLog (LogStarted (title testCase)) st))
  = (Throw e, st') ->
  has_message e = true ->
  index + 1 < List.length testCases ->
  executeTestCases this testCases index st
  = executeTestCases this testCases (index + 1) (writeLog (LogNG e) st').
Proof.
  intros Hn Hseq Hrun He Hlt. rewrite executeTestCases_unfold, Hn, Hseq, Hrun.
  unfold caught. rewrite He. apply Nat.ltb_lt in Hlt. now rewrite Hlt.
Qed.

(** A thrown [undefined] is not: the handler itself raises, and the
    exception leaves [executeTestCases]. *)
Lemma undefined_leaves_case_boundary testCases index testCase step steps st st' :
  nth_error testCases index = Some testCase ->
  sequence testCase = Some (step :: steps) ->
  invoke this (match contextPath testCase with Some p => p | None => EmptyString end)
         (step :: steps) 0 (setContext [] (writeLog (LogStarted (title testCase)) st))
  = (Throw ThrownUndefined, st') ->
  executeTestCases this testCases index st
  = (Throw (TypeError "Cannot read properties of undefined (reading 'message')"), st').
Proof.
  intros Hn Hseq Hrun. now rewrite executeTestCases_unfold, Hn, Hseq, Hrun.
Qed.

End ExecutorFacts.

(** C2 (what the code does).  With an empty test case first, the run
    ends before the test case that follows: nothing is logged and the
    answer the transport holds is not asked for.  Started at the second
    test case, the same run calls the transport and passes. *)
Theorem skipped_case_ends_run :
  demoRun demoValidator [emptyCase; pingCase] 0 (start [Ok pong]) = (Ok tt, start [Ok pong])
  /\ demoRun demoValidator [emptyCase; pingCase] 1 (start [Ok pong])
     = (Ok tt, {| world := [];
                  log := [LogStarted "ping"; LogPass "GET" "/ping"];
                  context := [JStr "pong"] |}).
Proof. split; reflexivity. Qed.

(** C3 (what the code does).  The first step of the first test case
    gets a boolean where the contract has [oneOf] string or number:
    [validateJson] throws [undefined], the handler of the test case
    raises a [TypeError], and the second test case, which passes when it
    is run, is never started. *)
Theorem undefined_error_ends_run :
  demoRun demoValidator [itemCase; pingCase] 0 (start [Ok flag; Ok pong])
  = (Throw (TypeError "Cannot read properties of undefined (reading 'message')"),
     {| world := [Ok pong]; log := [LogStarted "item"]; context := [] |})
  /\ demoRun demoValidator [itemCase; pingCase] 1 (start [Ok pong])
     = (Ok tt, {| world := [];
                  log := [LogStarted "ping"; LogPass "GET" "/ping"];
                  context := [JStr "pong"] |}).
Proof. split; reflexivity. Qed.

(* ================================================================== *)
(** ** More on the schema validator *)

Lemma compare_of_nat (a b : nat) :
  Number.compare (Number.of_nat a) (Number.of_nat b) = Some (Nat.compare a b).
Proof.
  unfold Number.of_nat. cbn [Number.compare]. rewrite Z.min_id, Z.sub_diag.
  change (10 ^ 0)%Z with 1%Z. rewrite !Z.mul_1_r. now rewrite Nat2Z.inj_compare.
Qed.

Lemma gtb_of_nat (a b : nat) : Number.gtb (Number.of_nat a) (Number.of_nat b) = (b <? a)%nat.
Proof.
  unfold Number.gtb. rewrite compare_of_nat.
  destruct (Nat.compare_spec a b) as [H|H|H]; symmetry.
  - apply Nat.ltb_ge. lia.
  - apply Nat.ltb_ge. lia.
  - apply Nat.ltb_lt. lia.
Qed.

Lemma ltb_of_nat (a b : nat) : Number.ltb (Number.of_nat a) (Number.of_nat b) = (a <? b)%nat.
Proof.
  unfold Number.ltb. rewrite compare_of_nat.
  destruct (Nat.compare_spec a b) as [H|H|H]; symmetry.
  - apply Nat.ltb_ge. lia.
  - apply Nat.ltb_lt. lia.
  - apply Nat.ltb_ge. lia.
Qed.

Lemma starts_with_app (p r : list ascii) : Str.starts_with p (p ++ r) = true.
Proof. induction p as [|c p IH]; simpl; [reflexivity|]. now rewrite Ascii.eqb_refl, IH. Qed.

Lemma starts_with_split (p l : list ascii) :
  Str.starts_with p l = true -> l = p ++ skipn (List.length p) l.
Proof.
  revert l. induction p as [|c p IH]; intros l H; [reflexivity|].
  destruct l as [|d l]; [discriminate|]. simpl in H.
  apply andb_prop in H. destruct H as [Hc Hp]. apply Ascii.eqb_eq in Hc. subst d.
  simpl. f_equal. now apply IH.
Qed.

Lemma chars_append (a b : string) : Str.chars (a ++ b) = Str.chars a ++ Str.chars b.
Proof. induction a as [|c a IH]; simpl; [reflexivity|]. unfold Str.chars in *. simpl. now rewrite IH. Qed.

Lemma of_chars_append (a b : list ascii) :
  Str.of_chars (a ++ b) = (Str.of_chars a ++ Str.of_chars b)%string.
Proof. induction a as [|c a IH]; simpl; [reflexivity|]. unfold Str.of_chars in *. simpl. now rewrite IH. Qed.

Lemma of_chars_chars (s : string) : Str.of_chars (Str.chars s) = s.
Proof. apply string_of_list_ascii_of_string. Qed.

Lemma length_chars (s : string) : List.length (Str.chars s) = String.length s.
Proof. induction s as [|c s IH]; simpl; [reflexivity|]. unfold Str.chars in *. simpl. now rewrite IH. Qed.

Lemma skipn_app_length {A : Type} (p r : list A) : skipn (List.length p) (p ++ r) = r.
Proof. induction p; simpl; auto. Qed.

Lemma lookup_existsb {A : Type} (key : string) (entries : list (string * A)) (v : A) :
  lookup key entries = Some v -> existsb (String.eqb key) (map fst entries) = true.
Proof.
  induction entries as [|[k x] entries IH]; simpl; [discriminate|].
  destruct (String.eqb key k); [reflexivity|]. exact IH.
Qed.

Section MoreValidatorFacts.
Context {engine : RegExp} (this : Validator).

(** A reference resolves exactly when it is the prefix
    [#/components/schemas/] followed by the name of a component. *)
Theorem getComponent_by_name (c : Components) (declared : list (string * schema))
        (path : string) (s : schema) :
  components (spec this) = Some c ->
  schemas c = Some declared ->
  (getComponent this path = Some s <->
   exists name, path = (componentPrefix ++ name)%string /\ lookup name declared = Some s).
Proof.
  intros Hc Hs. unfold getComponent. rewrite Hc, Hs. unfold Str.startsWith. split.
  - destruct (Str.starts_with (Str.chars componentPrefix) (Str.chars path)) eqn:Hp;
      [|discriminate].
    destruct (existsb _ _); [|discriminate]. intro Hl.
    exists (Str.substring_from (String.length componentPrefix) path). split; [|exact Hl].
    apply starts_with_split in Hp. rewrite length_chars in Hp.
    unfold Str.substring_from. rewrite <- (of_chars_chars path) at 1.
    rewrite Hp at 1. rewrite of_chars_append. now rewrite of_chars_chars.
  - intros (name & -> & Hl). rewrite chars_append, starts_with_app.
    unfold Str.substring_from. rewrite chars_append, <- length_chars, skipn_app_length.
    rewrite of_chars_chars. now rewrite (lookup_existsb _ _ _ Hl).
Qed.

(** A [$ref] that names no component raises "Schema is invalid."
    whatever the data. *)
Theorem unresolved_reference_raises data s path key enableCast :
  readComposition s = None ->
  ref s = Some path ->
  getComponent this path = None ->
  validateJson this data s key enableCast = Throw (SchemaInvalid s).
Proof.
  intros Hc Hr Hg. rewrite validateJson_unfold. unfold validateJsonBody.
  rewrite (validateComposition_none _ _ _ Hc). cbn [bind].
  unfold validateOwn, resolveSchema. now rewrite Hr, Hg.
Qed.

(** A node with [$ref] is validated as the component it names: the
    other keywords of the node play no part. *)
Theorem reference_stands_for_component data s s' path key enableCast :
  readComposition s = None ->
  ref s = Some path ->
  getComponent this path = Some s' ->
  readComposition s' = None ->
  ref s' = None ->
  validateJson this data s key enableCast = validateJson this data s' key enableCast.
Proof.
  intros Hc Hr Hg Hc' Hr'. rewrite !validateJson_unfold. unfold validateJsonBody.
  rewrite (validateComposition_none _ _ _ Hc), (validateComposition_none _ _ _ Hc').
  cbn [bind]. unfold validateOwn, resolveSchema. rewrite Hr, Hg, Hr'. reflexivity.
Qed.

(** A [type] outside the seven names checks nothing: every value
    passes. *)
Theorem unknown_type_accepts data s s' t key enableCast :
  readComposition s = None ->
  resolveSchema this s = Ok s' ->
  type s' = Some t ->
  ~ In t ["array"; "object"; "string"; "number"; "integer"; "boolean"; "null"] ->
  validateJson this data s key enableCast = Ok tt.
Proof.
  intros Hc Hr Ht Hn. rewrite validateJson_unfold. unfold validateJsonBody.
  rewrite (validateComposition_none _ _ _ Hc). cbn [bind].
  unfold validateOwn. rewrite Hr. cbn [bind]. rewrite Ht. unfold validateType.
  repeat match goal with
         | |- context [String.eqb t ?x] =>
             let E := fresh in
             destruct (String.eqb t x) eqn:E;
             [apply String.eqb_eq in E; exfalso; apply Hn; rewrite E; simpl; tauto|]
         end.
  reflexivity.
Qed.

(** A node of type [array]: the value has to be an array within
    [minItems] and [maxItems], each element of which validates against
    [items] (resolved through [$ref] when it resolves); without [items]
    the elements are not looked at. *)
Theorem array_succeeds data s s' key enableCast :
  readComposition s = None ->
  resolveSchema this s = Ok s' ->
  type s' = Some "array" ->
  (succeeds (validateJson this data s key enableCast) = true <->
   exists elements,
     data = JArr elements
     /\ (forall m, maxItems s' = Some m ->
                   Number.gtb (Number.of_nat (List.length elements)) m = false)
     /\ (forall m, minItems s' = Some m ->
                   Number.ltb (Number.of_nat (List.length elements)) m = false)
     /\ (forall valueSchema value,
           items s' = Some valueSchema -> In value elements ->
           succeeds (validateJson this value (resolveValueSchema this valueSchema) None false)
           = true)).
Proof.
  intros Hc Hr Ht. rewrite validateJson_unfold. unfold validateJsonBody.
  rewrite (validateComposition_none _ _ _ Hc). cbn [bind].
  unfold validateOwn. rewrite Hr. cbn [bind]. rewrite Ht.
  unfold validateType. cbn. unfold validateArray.
  destruct data as [| | | |elements|entries];
    try (split; [discriminate | intros (l & Hl & _); discriminate]).
  rewrite !succeeds_seq, !succeeds_throwIf, !andb_true_iff, !negb_true_iff.
  unfold aboveMaximum, belowMinimum. split.
  - intros [Hmax [Hmin Hit]]. exists elements. split; [reflexivity|].
    split; [intros m Hm; now rewrite Hm in Hmax|].
    split; [intros m Hm; now rewrite Hm in Hmin|].
    intros valueSchema value Hi Hin. rewrite Hi in Hit.
    rewrite succeeds_forEach, forallb_forall in Hit. now apply Hit.
  - intros (l & Hl & Hmax & Hmin & Hit). injection Hl as <-. split; [|split].
    + destruct (maxItems s'); [now apply Hmax | reflexivity].
    + destruct (minItems s'); [now apply Hmin | reflexivity].
    + destruct (items s') as [valueSchema|]; [|reflexivity].
      rewrite succeeds_forEach, forallb_forall. intros value Hin. now apply (Hit valueSchema).
Qed.

(** With the coercion of parameters, a [number] node refuses no type,
    and a value that converts to [NaN] passes every bound. *)
Theorem coerced_NaN_passes data s s' key :
  readComposition s = None ->
  resolveSchema this s = Ok s' ->
  type s' = Some "number" ->
  JS.toNumber data = Number.NaN ->
  validateJson this data s key true = Ok tt.
Proof.
  intros Hc Hr Ht Hn. rewrite validateJson_unfold. unfold validateJsonBody.
  rewrite (validateComposition_none _ _ _ Hc). cbn [bind].
  unfold validateOwn. rewrite Hr. cbn [bind]. rewrite Ht.
  unfold validateType. cbn. unfold validateNumber, validateBounds. rewrite Hn.
  unfold aboveMaximum, belowMinimum, atOrAboveMaximum.
  destruct (maximum s'), (minimum s'), (exclusiveMaximum s'), (exclusiveMinimum s');
    reflexivity.
Qed.

(** With the coercion of parameters, [null] under a [string] node is no
    validation error: [toString] is read on it and the runtime raises. *)
Theorem coerced_null_raises s s' key :
  readComposition s = None ->
  resolveSchema this s = Ok s' ->
  type s' = Some "string" ->
  validateJson this JNull s key true
  = Throw (TypeError "Cannot read properties of null (reading 'toString')").
Proof.
  intros Hc Hr Ht. rewrite validateJson_unfold. unfold validateJsonBody.
  rewrite (validateComposition_none _ _ _ Hc). cbn [bind].
  unfold validateOwn. rewrite Hr. cbn [bind]. rewrite Ht. reflexivity.
Qed.

(** [minLength] and [maxLength] include their bounds, and bound the
    length in UTF-16 code units. *)
Theorem string_length_bounds (str : string) s s' (least most : nat) key :
  readComposition s = None ->
  resolveSchema this s = Ok s' ->
  type s' = Some "string" ->
  minLength s' = Some (Number.of_nat least) ->
  maxLength s' = Some (Number.of_nat most) ->
  enum s' = None -> pattern s' = None -> format s' = None ->
  (succeeds (validateJson this (JStr str) s key false) = true <->
   least <= Str.length str <= most).
Proof.
  intros Hc Hr Ht Hmin Hmax He Hp Hf. rewrite validateJson_unfold. unfold validateJsonBody.
  rewrite (validateComposition_none _ _ _ Hc). cbn [bind].
  unfold validateOwn. rewrite Hr. cbn [bind]. rewrite Ht.
  unfold validateType. cbn. unfold validateString. cbn [bind].
  rewrite Hmin, Hmax, He, Hp, Hf.
  rewrite !succeeds_seq, !succeeds_throwIf. unfold aboveMaximum, belowMinimum.
  rewrite gtb_of_nat, ltb_of_nat. cbn [negb andb].
  rewrite !andb_true_r, andb_true_iff, !negb_true_iff, !Nat.ltb_ge. lia.
Qed.

End MoreValidatorFacts.

(* ================================================================== *)
(** ** More on the expression resolver *)

(** An operator made of the characters [=><!] that is none of the seven
    the resolver knows compares nothing: the group counts as [true]. *)
Theorem unknown_operator_passes (operator : string) (operand1 operand2 : json) :
  ~ In operator ["="; "=="; "<"; "<="; ">"; ">="; "!="] ->
  compareOperands operator operand1 operand2 = true.
Proof.
  intro Hn. unfold compareOperands.
  repeat match goal with
         | |- context [String.eqb operator ?x] =>
             let E := fresh in
             destruct (String.eqb operator x) eqn:E;
             [apply String.eqb_eq in E; exfalso; apply Hn; rewrite E; simpl; tauto|]
         end.
  reflexivity.
Qed.

(** A string of digits and dots that is no number, as a version or an
    address is, becomes [NaN]: it is equal to nothing, itself included. *)
Theorem dotted_string_never_equal (s : string) (operand : json) :
  Pattern.isNumeric s = true ->
  Number.of_string s = Number.NaN ->
  compareOperands "=" (JStr s) operand = false
  /\ compareOperands "!=" (JStr s) operand = true.
Proof.
  intros Hn Hv.
  assert (Hc : castAsComparable (JStr s) = JNum Number.NaN).
  { unfold castAsComparable. cbn [JS.toString]. rewrite Hn. cbn [JS.toNumber]. now rewrite Hv. }
  assert (He : JS.looseEquals (JNum Number.NaN) (castAsComparable operand) = false).
  { destruct (castAsComparable operand) as [| [] | n | t | l | l]; try reflexivity. }
  unfold compareOperands. cbn. rewrite Hc, He. split; reflexivity.
Qed.

(** The scanner of [/{([^}]+)}/g] loses nothing: the pieces written back
    give the text. *)
Lemma scan_written (l : list ascii) : forall inside,
  flat_map written (Pattern.scan inside l)
  = match inside with
    | Some acc => Pattern.lbrace :: rev acc ++ l
    | None => l
    end.
Proof.
  induction l as [|c l IH]; intro inside.
  - destruct inside as [acc|]; [|reflexivity]. cbn [Pattern.scan].
    rewrite app_nil_r. generalize (Pattern.lbrace :: rev acc). intro t.
    induction t; simpl; congruence.
  - destruct inside as [acc|]; cbn [Pattern.scan].
    + destruct (Ascii.eqb c Pattern.rbrace) eqn:Hc.
      * apply Ascii.eqb_eq in Hc. subst c. destruct acc as [|a acc].
        -- cbn [flat_map written app]. now rewrite (IH None).
        -- cbn [flat_map written]. rewrite (IH None), chars_of_chars.
           cbn [app]. now rewrite <- app_assoc.
      * rewrite (IH (Some (c :: acc))). cbn [rev]. now rewrite <- app_assoc.
    + destruct (Ascii.eqb c Pattern.lbrace) eqn:Hc.
      * apply Ascii.eqb_eq in Hc. subst c. now rewrite (IH (Some [])).
      * cbn [flat_map written app]. now rewrite (IH None).
Qed.

Section MoreResolverFacts.
Context {jsonpath : JSONPath}.

Lemma replacePieces_texts (l : list Pattern.piece) context response :
  Pattern.groupsOf l = [] ->
  replacePieces l context response = Ok (flat_map written l).
Proof.
  induction l as [|[c|target] l IH]; intro H; [reflexivity| |discriminate].
  cbn [replacePieces]. rewrite IH by exact H. reflexivity.
Qed.

(** A template without a group (no brace, an empty [{}], a brace that
    is not closed) is returned as it is. *)
Theorem template_without_group_unchanged (definition : string) context response :
  Pattern.groups definition = [] ->
  replaceBrackets (Some definition) context response = Ok (Some definition).
Proof.
  intro H. unfold replaceBrackets, Pattern.groups in *.
  rewrite replacePieces_texts by exact H. cbn [bind].
  unfold Pattern.pieces. rewrite (scan_written _ None). now rewrite of_chars_chars.
Qed.

End MoreResolverFacts.

(* ================================================================== *)
(** ** References to the context *)

Lemma digits_of_uint_acc (d : Decimal.uint) : forall acc : positive,
  fold_left digitStep (Str.chars (DecimalString.NilEmpty.string_of_uint d)) (Zpos acc)
  = Zpos (Pos.of_uint_acc d acc).
Proof.
  induction d; intro acc; cbn [DecimalString.NilEmpty.string_of_uint Pos.of_uint_acc];
    try reflexivity;
    (unfold Str.chars in *; cbn [list_ascii_of_string fold_left];
     rewrite <- IHd; f_equal; unfold digitStep; vm_compute Number.digit_value; lia).
Qed.

Lemma digits_of_uint (d : Decimal.uint) :
  fold_left digitStep (Str.chars (DecimalString.NilEmpty.string_of_uint d)) 0%Z
  = Z.of_N (Pos.of_uint d).
Proof.
  induction d; cbn [DecimalString.NilEmpty.string_of_uint Pos.of_uint];
    try reflexivity;
    unfold Str.chars in *; cbn [list_ascii_of_string fold_left];
    try exact IHd;
    (change (digitStep 0 _) with (Zpos 1) || change (digitStep 0 _) with (Zpos 2)
     || change (digitStep 0 _) with (Zpos 3) || change (digitStep 0 _) with (Zpos 4)
     || change (digitStep 0 _) with (Zpos 5) || change (digitStep 0 _) with (Zpos 6)
     || change (digitStep 0 _) with (Zpos 7) || change (digitStep 0 _) with (Zpos 8)
     || change (digitStep 0 _) with (Zpos 9));
    apply (digits_of_uint_acc d).
Qed.

(** Reading the decimal text of a number gives the number back. *)
Lemma digits_value_of_N (n : N) : Number.digits_value (Str.chars (Str.of_N n)) = Z.of_N n.
Proof.
  unfold Str.of_N, DecimalString.NilZero.string_of_uint, Number.digits_value.
  change (fun acc c => (acc * 10 + Number.digit_value c)%Z) with digitStep.
  destruct (N.to_uint n) eqn:Hd;
    try (rewrite <- Hd, digits_of_uint; change (Pos.of_uint (N.to_uint n)) with
           (N.of_uint (N.to_uint n)); now rewrite DecimalN.Unsigned.of_to).
  assert (H : N.of_uint (N.to_uint n) = n) by apply DecimalN.Unsigned.of_to.
  rewrite Hd in H. simpl in H. subst n. reflexivity.
Qed.

Lemma digits_of_uint_all (d : Decimal.uint) :
  forallb Str.is_digit (Str.chars (DecimalString.NilEmpty.string_of_uint d)) = true.
Proof.
  induction d; cbn [DecimalString.NilEmpty.string_of_uint]; try reflexivity;
    unfold Str.chars in *; cbn [list_ascii_of_string forallb]; now rewrite IHd.
Qed.

Lemma of_N_digits (n : N) : forallb Str.is_digit (Str.chars (Str.of_N n)) = true.
Proof.
  unfold Str.of_N, DecimalString.NilZero.string_of_uint.
  destruct (N.to_uint n) eqn:Hd; try (rewrite <- Hd; apply digits_of_uint_all).
  reflexivity.
Qed.

Lemma of_N_nonempty (n : N) : Str.chars (Str.of_N n) <> [].
Proof.
  unfold Str.of_N, DecimalString.NilZero.string_of_uint.
  destruct (N.to_uint n); discriminate.
Qed.

(** [context[n]] is the body of step [n]. *)
Lemma contextAt_of_nat (context : list json) (n : nat) :
  contextAt context (Str.of_nat n) = nth_error context n.
Proof.
  unfold contextAt, Str.of_nat. rewrite digits_value_of_N, nat_N_Z, Nat2Z.id.
  unfold Str.of_nat. now rewrite String.eqb_refl.
Qed.

Lemma takeWhile_prefix (p : ascii -> bool) (a : list ascii) c (b : list ascii) :
  forallb p a = true -> p c = false ->
  Str.takeWhile p (a ++ c :: b) = a /\ Str.dropWhile p (a ++ c :: b) = c :: b.
Proof.
  intros Ha Hc. induction a as [|x a IH]; simpl.
  - now rewrite Hc.
  - simpl in Ha. apply andb_prop in Ha. destruct Ha as [Hx Ha]. rewrite Hx.
    destruct (IH Ha) as [-> ->]. split; reflexivity.
Qed.

Lemma contextReference_of (n : nat) (target : string) :
  Pattern.nonempty_all Pattern.is_path_char (Str.chars target) = true ->
  Pattern.contextReference (contextPath_of n target) = Some (Str.of_nat n, target).
Proof.
  intro Ht. unfold Pattern.contextReference, contextPath_of.
  rewrite chars_append, starts_with_app.
  change (skipn 8 (Str.chars "context[" ++ ?l)) with l.
  rewrite chars_append.
  change (Str.chars ("]." ++ target)) with ("]"%char :: "."%char :: Str.chars target).
  destruct (takeWhile_prefix Str.is_digit (Str.chars (Str.of_nat n)) "]"
              ("."%char :: Str.chars target) (of_N_digits _) eq_refl) as [-> ->].
  destruct (Str.chars (Str.of_nat n)) eqn:Hd.
  { now elim (of_N_nonempty (N.of_nat n)). }
  rewrite <- Hd, Ht, !of_chars_chars. reflexivity.
Qed.

Section ContextFacts.
Context {jsonpath : JSONPath}.

(** The reference [context[n].path] reads the body of step [n]: the
    first value jsonpath finds there, as a string, or ["null"] when it
    finds none.  A step that has not passed yet, [n] being the number
    of bodies in the context or more, has no body, and the reference
    raises. *)
Theorem context_reference_reads_step (context : list json) (n : nat) (target : string) :
  Pattern.nonempty_all Pattern.is_path_char (Str.chars target) = true ->
  replaceContext (contextPath_of n target) context
  = match nth_error context n with
    | Some stepBody =>
        values <- JSONPath_query stepBody target ;;
        Ok (match values with
            | value :: _ => JS.toString value
            | [] => "null"
            end)
    | None => Throw (JSONPathError "obj needs to be an object")
    end.
Proof.
  intro Ht. unfold replaceContext. rewrite (contextReference_of n target Ht).
  rewrite contextAt_of_nat. now destruct (nth_error context n).
Qed.

End ContextFacts.

(* ================================================================== *)
(** ** A plain expected body *)

Lemma unquote_quote_char (c : ascii) (rest : list ascii) :
  unquote (JS.quote_char c ++ rest) = c :: unquote rest.
Proof.
  destruct c as [b0 b1 b2 b3 b4 b5 b6 b7];
    destruct b0, b1, b2, b3, b4, b5, b6, b7; reflexivity.
Qed.

(** What [JSON.stringify] writes for a string reads back as the string. *)
Lemma unquote_quoted (l : list ascii) : unquote (flat_map JS.quote_char l) = l.
Proof.
  induction l as [|c l IH]; [reflexivity|].
  cbn [flat_map]. now rewrite unquote_quote_char, IH.
Qed.

Lemma chars_injective (a b : string) : Str.chars a = Str.chars b -> a = b.
Proof. intro H. rewrite <- (of_chars_chars a), <- (of_chars_chars b). now rewrite H. Qed.

Lemma of_chars_injective (a b : list ascii) : Str.of_chars a = Str.of_chars b -> a = b.
Proof. intro H. rewrite <- (chars_of_chars a), <- (chars_of_chars b). now rewrite H. Qed.

Lemma quote_injective (s t : string) : JS.quote s = JS.quote t -> s = t.
Proof.
  unfold JS.quote. intro H. apply of_chars_injective in H. injection H as H.
  apply app_inj_tail in H. destruct H as [H _].
  apply chars_injective. rewrite <- (unquote_quoted (Str.chars s)), H.
  apply unquote_quoted.
Qed.

Lemma digit_unquoted (c : ascii) : Str.is_digit c = true -> unquoted c = true.
Proof. each_ascii c. Qed.

Lemma forallb_weaken (p q : ascii -> bool) (l : list ascii) :
  (forall c, p c = true -> q c = true) -> forallb p l = true -> forallb q l = true.
Proof.
  intros H. induction l as [|c l IH]; simpl; [reflexivity|].
  intro Hl. apply andb_prop in Hl. destruct Hl as [Hc Hl]. now rewrite (H c Hc), IH.
Qed.

Lemma forallb_rev (p : ascii -> bool) (l : list ascii) :
  forallb p l = true -> forallb p (rev l) = true.
Proof.
  rewrite !forallb_forall. intros H c Hc. apply H. now apply in_rev.
Qed.

Lemma forallb_dropWhile (p q : ascii -> bool) (l : list ascii) :
  forallb p l = true -> forallb p (Str.dropWhile q l) = true.
Proof.
  induction l as [|c l IH]; simpl; [reflexivity|].
  intro H. destruct (q c); [|exact H]. apply andb_prop in H. now apply IH.
Qed.

Lemma forallb_firstn (p : ascii -> bool) (n : nat) (l : list ascii) :
  forallb p l = true -> forallb p (firstn n l) = true.
Proof.
  revert l. induction n as [|n IH]; intros [|c l]; simpl; try reflexivity.
  intro H. apply andb_prop in H. destruct H as [-> H]. now apply IH.
Qed.

Lemma forallb_skipn (p : ascii -> bool) (n : nat) (l : list ascii) :
  forallb p l = true -> forallb p (skipn n l) = true.
Proof.
  revert l. induction n as [|n IH]; intros [|c l]; simpl; try reflexivity; [auto|].
  intro H. apply andb_prop in H. destruct H as [_ H]. now apply IH.
Qed.

Lemma forallb_repeat_zero (n : Z) : forallb unquoted (Number.repeat_zero n) = true.
Proof. unfold Number.repeat_zero. induction (Z.to_nat n); simpl; auto. Qed.

Lemma of_N_unquoted (n : N) : forallb unquoted (Str.chars (Str.of_N n)) = true.
Proof. apply (forallb_weaken Str.is_digit); [apply digit_unquoted | apply of_N_digits]. Qed.

Lemma exponential_unquoted (d exs : list ascii) :
  forallb unquoted d = true -> forallb unquoted exs = true ->
  forallb unquoted
    match d with
    | [] => []
    | [c] => c :: "e"%char :: exs
    | c :: rest => c :: "."%char :: rest ++ "e"%char :: exs
    end = true.
Proof.
  intros Hd He. destruct d as [|c [|c' rest]]; [reflexivity| |].
  - cbn [forallb] in *. apply andb_prop in Hd. destruct Hd as [-> _]. now rewrite He.
  - remember (c' :: rest) as tail. cbn [forallb] in *.
    apply andb_prop in Hd. destruct Hd as [-> Hd].
    rewrite forallb_app. cbn [forallb]. now rewrite Hd, He.
Qed.

(** The text of a number holds no quotation mark. *)
Lemma toString_unquoted (n : Number.number) :
  forallb unquoted (Str.chars (Number.toString n)) = true.
Proof.
  destruct n as [|[]|m e]; try reflexivity. unfold Number.toString.
  destruct (m =? 0)%Z; [reflexivity|].
  set (all := Str.chars (Str.of_N (Z.abs_N m))).
  assert (Hall : forallb unquoted all = true) by apply of_N_unquoted.
  set (d := rev (Str.dropWhile (Ascii.eqb "0") (rev all))).
  assert (Hd : forallb unquoted d = true).
  { unfold d. apply forallb_rev, forallb_dropWhile, forallb_rev, Hall. }
  rewrite chars_of_chars.
  match goal with
  | |- forallb unquoted (if _ then _ :: ?b else ?b) = true =>
      assert (Hb : forallb unquoted b = true)
  end.
  { repeat match goal with |- context [if ?c then _ else _] => destruct c end.
    - now rewrite forallb_app, Hd, forallb_repeat_zero.
    - rewrite forallb_app. cbn [forallb].
      now rewrite forallb_firstn, forallb_skipn by exact Hd.
    - cbn [forallb]. now rewrite forallb_app, forallb_repeat_zero, Hd.
    - apply exponential_unquoted; [exact Hd|]. cbn [forallb]. apply of_N_unquoted.
    - apply exponential_unquoted; [exact Hd|]. cbn [forallb]. apply of_N_unquoted. }
  destruct (m <? 0)%Z; [cbn [forallb]; now rewrite Hb | exact Hb].
Qed.

(** Only a string is written by [stringifyObject] as a quoted string, and
    only as its own. *)
Lemma stringifyObject_quote (v : json) (t : string) :
  stringifyObject v = JS.quote t <-> v = JStr t.
Proof.
  split; [|intros ->; reflexivity].
  unfold JS.quote. destruct v as [|[]|n|s|l|l]; cbn [stringifyObject JS.stringify]; intro H;
    try discriminate H.
  - exfalso. assert (Hq := toString_unquoted n).
    destruct n as [|[]|m e]; try discriminate H.
    rewrite H, chars_of_chars in Hq. discriminate Hq.
  - f_equal. now apply quote_injective.
Qed.

Section PlainBody.
Context {jsonpath : JSONPath}.

(** For a template in which [/{.+}/] finds no group, the body check
    passes for one body only: the string equal to the template. *)
Theorem plain_template_matches_its_string (template : string) context responseBody :
  Pattern.hasBraces template = false ->
  (checkBody (JStr template) context responseBody = Ok tt <-> responseBody = JStr template).
Proof.
  intro H. rewrite <- stringifyObject_quote. unfold checkBody.
  rewrite (evalBrackets_malformed template context responseBody
             (no_braces_no_comparison template H)).
  cbn [bind negb]. rewrite H. cbn [negb andb].
  change (stringifyObject (JStr template)) with (JS.quote template).
  destruct (String.eqb_spec (stringifyObject responseBody) (JS.quote template))
    as [Heq | Hne]; cbn [negb].
  - tauto.
  - split; [discriminate | contradiction].
Qed.

End PlainBody.

Section BodyClaim.
Context {jsonpath : JSONPath}.


(** An expected body that is no string has no [replace]: the check
    raises before anything is compared. *)
Lemma structured_expected_body_raises expectedBody context responseBody :
  (forall template, expectedBody <> JStr template) ->
  checkBody expectedBody context responseBody
  = Throw (TypeError "definition.replace is not a function").
Proof.
  intro H. destruct expectedBody; try reflexivity. now destruct (H s).
Qed.

End BodyClaim.



(* ================================================================== *)
(** ** What a run leaves in the log and in the context *)

Lemma startedTitles_app (a b : list LogEntry) :
  startedTitles (a ++ b) = startedTitles a ++ startedTitles b.
Proof. apply flat_map_app. Qed.

Lemma passed_app (a b : list LogEntry) : passed (a ++ b) = passed a + passed b.
Proof. unfold passed. now rewrite filter_app, length_app. Qed.

Section RunFacts.
Context {engine : RegExp} {jsonpath : JSONPath} {http : Http}.
Variable this : Validator.

(** One step: the log grows by the verbose lines and, on success, by
    the line of the pass, the context by the body of the response. *)
Lemma invokeStep_effect contextPath step st r st' :
  invokeStep this contextPath step st = (r, st') ->
  exists entries bodies,
    log st' = log st ++ entries
    /\ context st' = context st ++ bodies
    /\ startedTitles entries = []
    /\ passed entries = List.length bodies
    /\ List.length bodies = (if succeeds r then 1 else 0).
Proof.
  unfold invokeStep. destruct (prepare this contextPath step (context st)) as [request|e0].
  - destruct (Http_request _ _ _ _ _) as [[response|e1] w].
    + destruct (validateResponse this _ response ;; checkExpectations step _ response)
        as [[]|e2]; intro H; injection H as <- <-.
      * destruct (verbose this).
        -- eexists [_; _; _], [_]. cbn. rewrite <- !app_assoc. repeat split.
        -- eexists [_], [_]. cbn. repeat split.
      * destruct (verbose this).
        -- eexists [_; _], []. cbn. rewrite <- !app_assoc, app_nil_r. repeat split.
        -- exists [], []. cbn. rewrite !app_nil_r. repeat split.
    + intro H. injection H as <- <-. destruct (verbose this).
      * eexists [_], []. cbn. rewrite app_nil_r. repeat split.
      * exists [], []. cbn. rewrite !app_nil_r. repeat split.
  - intro H. injection H as <- <-. exists [], []. rewrite !app_nil_r. repeat split.
Qed.

Lemma invokeSteps_effect contextPath (steps : list Invoke) : forall st r st',
  steps <> [] ->
  invokeSteps this contextPath steps st = (r, st') ->
  exists entries bodies,
    log st' = log st ++ entries
    /\ context st' = context st ++ bodies
    /\ startedTitles entries = []
    /\ passed entries = List.length bodies
    /\ (if succeeds r then List.length bodies = List.length steps
        else List.length bodies < List.length steps).
Proof.
  induction steps as [|step rest IH]; intros st r st' Hne; [congruence|].
  cbn [invokeSteps].
  destruct (invokeStep this contextPath step st) as [[[]|e] st1] eqn:Hs.
  - destruct (invokeStep_effect _ _ _ _ _ Hs) as (e1 & b1 & Hl1 & Hc1 & Ht1 & Hp1 & Hn1).
    cbn in Hn1. destruct rest as [|next rest].
    + intro H. injection H as <- <-. exists e1, b1. cbn. repeat split; auto.
    + intro H. destruct (IH st1 r st' ltac:(discriminate) H)
        as (e2 & b2 & Hl2 & Hc2 & Ht2 & Hp2 & Hn2).
      exists (e1 ++ e2), (b1 ++ b2). rewrite Hl2, Hl1, Hc2, Hc1, <- !app_assoc.
      rewrite startedTitles_app, passed_app, length_app, Ht1, Ht2, Hp1, Hp2, Hn1.
      repeat split. destruct (succeeds r); cbn [List.length] in *; lia.
  - intro H. injection H as <- <-.
    destruct (invokeStep_effect _ _ _ _ _ Hs) as (e1 & b1 & Hl1 & Hc1 & Ht1 & Hp1 & Hn1).
    cbn in Hn1. exists e1, b1. repeat split; auto. cbn. lia.
Qed.

(** [invoke] extends the context and never rewrites it: from step
    [index] on it appends one body for each step that passes, as many
    as the log has new lines of a pass.  When it returns, every step
    from [index] on has added its body; when it raises, fewer have. *)
Theorem context_grows_with_passes contextPath sequence index st r st' :
  index < List.length sequence ->
  invoke this contextPath sequence index st = (r, st') ->
  exists entries bodies,
    log st' = log st ++ entries
    /\ context st' = context st ++ bodies
    /\ passed entries = List.length bodies
    /\ (if succeeds r then List.length bodies = List.length sequence - index
        else List.length bodies < List.length sequence - index).
Proof.
  intros Hi H. unfold invoke in H.
  assert (Hne : skipn index sequence <> []).
  { intro Hs. apply (f_equal (@List.length _)) in Hs. rewrite length_skipn in Hs.
    simpl in Hs. lia. }
  destruct (invokeSteps_effect _ _ _ _ _ Hne H) as (e & b & Hl & Hc & _ & Hp & Hn).
  exists e, b. rewrite length_skipn in Hn. repeat split; auto.
Qed.

Lemma caught_effect (outcome : result unit * Run World) r st' :
  caught outcome = (r, st') ->
  exists entries,
    log st' = log (snd outcome) ++ entries /\ startedTitles entries = [].
Proof.
  destruct outcome as [[[]|e] st1]; cbn [caught snd].
  - intro H. injection H as <- <-. exists []. now rewrite app_nil_r.
  - destruct (has_message e); intro H; injection H as <- <-.
    + eexists [_]. split; reflexivity.
    + exists []. now rewrite app_nil_r.
Qed.

Lemma executeCases_started (cases : list TestCase) : forall st r st',
  executeCases this cases st = (r, st') ->
  exists n,
    startedTitles (log st') = startedTitles (log st) ++ map title (firstn n cases)
    /\ (r = Ok tt ->
        (forall testCase, In testCase cases ->
                          sequence testCase <> None /\ sequence testCase <> Some []) ->
        n = List.length cases).
Proof.
  induction cases as [|testCase rest IH]; intros st r st'; cbn [executeCases].
  - intro H. injection H as <- <-. exists 0. cbn. rewrite app_nil_r. split; [reflexivity|].
    discriminate.
  - destruct (sequence testCase) as [[|step steps]|] eqn:Hseq.
    + intro H. injection H as <- <-. exists 0. cbn. rewrite app_nil_r.
      split; [reflexivity|]. intros _ Hall.
      destruct (Hall testCase (or_introl eq_refl)) as [_ Hn]. congruence.
    + destruct (caught _) as [[[]|e] st1] eqn:Hcaught.
      * apply caught_effect in Hcaught. destruct Hcaught as (e1 & Hl1 & Ht1).
        destruct (invoke this _ (step :: steps) 0 _) as [r0 st0] eqn:Hrun.
        unfold invoke in Hrun. cbn [skipn] in Hrun.
        assert (Hne : step :: steps <> []) by discriminate.
        destruct (invokeSteps_effect _ _ _ _ _ Hne Hrun)
          as (e0 & b0 & Hl0 & _ & Ht0 & _).
        cbn [snd] in Hl1.
        assert (Hst1 : startedTitles (log st1) = startedTitles (log st) ++ [title testCase]).
        { rewrite Hl1, Hl0. cbn [log setContext writeLog].
          rewrite !startedTitles_app, Ht0, Ht1. cbn. now rewrite !app_nil_r. }
        destruct rest as [|next rest].
        -- intro H. injection H as <- <-. exists 1. cbn. split; [exact Hst1|reflexivity].
        -- intro H. destruct (IH st1 r st' H) as (n & Hn & Hall).
           exists (S n). split.
           ++ rewrite Hn, Hst1, <- app_assoc. reflexivity.
           ++ intros Hr Hseqs. cbn [List.length]. f_equal. apply Hall; [exact Hr|].
              intros c Hc. apply Hseqs. now right.
      * intro H. injection H as <- <-.
        apply caught_effect in Hcaught. destruct Hcaught as (e1 & Hl1 & Ht1).
        destruct (invoke this _ (step :: steps) 0 _) as [r0 st0] eqn:Hrun.
        unfold invoke in Hrun. cbn [skipn] in Hrun.
        assert (Hne : step :: steps <> []) by discriminate.
        destruct (invokeSteps_effect _ _ _ _ _ Hne Hrun)
          as (e0 & b0 & Hl0 & _ & Ht0 & _).
        cbn [snd] in Hl1. exists 1. split; [|discriminate].
        rewrite Hl1, Hl0. cbn [log setContext writeLog].
        rewrite !startedTitles_app, Ht0, Ht1. cbn. now rewrite !app_nil_r.
    + intro H. injection H as <- <-. exists 0. cbn. rewrite app_nil_r.
      split; [reflexivity|]. intros _ Hall.
      destruct (Hall testCase (or_introl eq_refl)) as [Hn _]. congruence.
Qed.

(** Test cases start in the order of their declaration, each once: the
    titles a run adds to the log are those of the first cases from
    [index] on, without a gap. *)
Theorem cases_start_in_order testCases index st r st' :
  executeTestCases this testCases index st = (r, st') ->
  exists n,
    startedTitles (log st')
    = startedTitles (log st) ++ map title (firstn n (skipn index testCases)).
Proof.
  intro H. destruct (executeCases_started _ _ _ _ H) as (n & Hn & _). now exists n.
Qed.

(** When no test case lacks steps and the run returns, every test case
    from [index] on was started. *)
Theorem returned_run_started_all testCases index st st' :
  (forall testCase, In testCase testCases ->
                    sequence testCase <> None /\ sequence testCase <> Some []) ->
  executeTestCases this testCases index st = (Ok tt, st') ->
  startedTitles (log st')
  = startedTitles (log st) ++ map title (skipn index testCases).
Proof.
  intros Hall H. destruct (executeCases_started _ _ _ _ H) as (n & Hn & Hlen).
  rewrite Hn. rewrite (Hlen eq_refl).
  - now rewrite firstn_all.
  - intros c Hc. apply Hall. revert Hc. clear. revert index.
    induction testCases as [|x l IH]; intros [|index]; simpl; try tauto.
    intro H. right. now apply (IH index).
Qed.

End RunFacts.

(* ================================================================== *)
(** ** The request a step sends *)

Lemma bind_Ok {A B : Type} (c : result A) (k : A -> result B) (b : B) :
  bind c k = Ok b -> exists a, c = Ok a /\ k a = Ok b.
Proof. destruct c as [a|e]; [|discriminate]. intro H. now exists a. Qed.

Lemma lookup_delete {A : Type} (key k : string) (entries : list (string * A)) :
  lookup k (delete key entries) = if String.eqb k key then None else lookup k entries.
Proof.
  induction entries as [|[k' v] l IH]; cbn [delete filter lookup fst].
  - now destruct (String.eqb k key).
  - fold (delete key l). destruct (String.eqb key k') eqn:Hk; cbn [negb lookup].
    + apply String.eqb_eq in Hk. subst k'. rewrite IH. now destruct (String.eqb k key).
    + rewrite IH. destruct (String.eqb k key) eqn:Hkk; [|reflexivity].
      apply String.eqb_eq in Hkk. subst k. rewrite Hk. reflexivity.
  Qed.

Lemma getProperty_delete (object : json) (key k : string) :
  getProperty (deleteProperty object key) k
  = if String.eqb k key then None else getProperty object k.
Proof.
  destruct object; cbn [getProperty deleteProperty]; try (now destruct (String.eqb k key)).
  apply lookup_delete.
Qed.

Lemma trim_chars_bare (c d : ascii) (l : list ascii) :
  Str.is_space c = false -> Str.is_space d = false ->
  Str.trim_chars (c :: l ++ [d]) = c :: l ++ [d].
Proof.
  intros Hc Hd. unfold Str.trim_chars. cbn [Str.dropWhile]. rewrite Hc.
  change (c :: l ++ [d]) with ((c :: l) ++ [d]). rewrite rev_app_distr.
  cbn [rev app Str.dropWhile]. rewrite Hd.
  change (d :: rev l ++ [c]) with (rev [d] ++ rev (c :: l)).
  rewrite <- rev_app_distr. apply rev_involutive.
Qed.

Lemma greedyClose_last (g : list ascii) : forall position best,
  Str.on_one_line g = true ->
  1 <= position + List.length g ->
  Pattern.greedyClose (g ++ [Pattern.rbrace]) position best
  = Some (S (position + List.length g)).
Proof.
  induction g as [|c g IH]; intros position best Hg Hlen.
  - cbn [app Pattern.greedyClose List.length] in *.
    change (Str.is_line_terminator [Pattern.rbrace]) with false.
    change (Ascii.eqb Pattern.rbrace Pattern.rbrace) with true.
    replace (1 <=? position)%nat with true by (symmetry; apply Nat.leb_le; lia).
    cbn [andb]. f_equal. lia.
  - cbn [Str.on_one_line] in Hg. apply andb_prop in Hg. destruct Hg as [Hc Hg].
    apply negb_true_iff in Hc.
    change ((c :: g) ++ [Pattern.rbrace]) with (c :: (g ++ [Pattern.rbrace])).
    cbn [Pattern.greedyClose].
    change (c :: (g ++ [Pattern.rbrace])) with ((c :: g) ++ [Pattern.rbrace]).
    rewrite (line_terminator_before_ascii Pattern.rbrace (c :: g) [] eq_refl)
      by discriminate.
    rewrite Hc, IH; [|exact Hg|cbn [List.length] in Hlen; lia].
    cbn [List.length]. f_equal. lia.
Qed.

Section RequestFacts.
Context {engine : RegExp} {jsonpath : JSONPath} {http : Http}.
Variable this : Validator.

(** A request is prepared only for one of the seven methods, written
    in lower case, and for an operation that the path item declares for
    it; the path item of the contract goes before a canned one. *)
Theorem prepared_method_known contextPath step context request :
  prepare this contextPath step context = Ok request ->
  exists path method item,
    invoke_path step = Some path
    /\ invoke_method step = Some method
    /\ prepared_method request = Str.toLowerCase method
    /\ In (prepared_method request) methods
    /\ match lookup path (paths (spec this)) with
       | Some declared => item = declared
       | None => exists key, invoke_spec step = Some key
                             /\ StandardSpecs.getSpec key = Some item
       end
    /\ lookup (prepared_method request) (operations item)
       = Some (prepared_operation request).
Proof.
  unfold prepare. destruct (invoke_path step) as [path|]; [|discriminate].
  destruct (invoke_method step) as [method|]; [|discriminate].
  intro H. apply bind_Ok in H. destruct H as (item & Hitem & H).
  apply bind_Ok in H. destruct H as ([] & Hmethod & H).
  apply bind_Ok in H. destruct H as (requestHeaders & _ & H).
  apply bind_Ok in H. destruct H as (r & _ & H).
  destruct (lookup (Str.toLowerCase method) (operations item)) as [operation|] eqn:Hop;
    [|discriminate].
  apply bind_Ok in H. destruct H as (q & _ & H). injection H as <-.
  cbn [prepared_method prepared_operation].
  exists path, method, item. repeat split; auto.
  - unfold throwIf in Hmethod.
    destruct (existsb _ methods) eqn:He; [|discriminate].
    apply existsb_exists in He. destruct He as (m & Hin & Hm).
    apply String.eqb_eq in Hm. now rewrite Hm.
  - destruct (lookup path (paths (spec this))) as [declared|].
    + now injection Hitem as ->.
    + destruct (invoke_spec step) as [key|]; [|discriminate].
      exists key. split; [reflexivity|].
      destruct (StandardSpecs.getSpec key); [|discriminate]. now injection Hitem as ->.
Qed.

(** A step for a path that neither the contract nor a canned
    specification declares raises before anything is sent: the world,
    the log and the context stay as they were. *)
Theorem undeclared_path_sends_nothing contextPath step path method st :
  invoke_path step = Some path ->
  invoke_method step = Some method ->
  lookup path (paths (spec this)) = None ->
  (forall key, invoke_spec step = Some key -> StandardSpecs.getSpec key = None) ->
  invokeStep this contextPath step st = (Throw (PathNotFound path), st).
Proof.
  intros Hp Hm Hl Hs. unfold invokeStep, prepare. rewrite Hp, Hm, Hl.
  destruct (invoke_spec step) as [key|]; [rewrite (Hs key eq_refl)|]; reflexivity.
Qed.

(** The properties a referenced parameter component names leave the
    request body, and only they do. *)
Theorem consumed_properties_leave_body (keys : list string) (fill : bool) (k : string) :
  forall requestBody requestPath,
    getProperty (fst (consume keys fill requestBody requestPath)) k
    = if existsb (String.eqb k) keys then None else getProperty requestBody k.
Proof.
  induction keys as [|key rest IH]; intros requestBody requestPath;
    cbn [consume existsb fst]; [reflexivity|].
  destruct (getProperty requestBody key) as [value|] eqn:Hv.
  - rewrite IH, getProperty_delete.
    destruct (String.eqb k key); cbn [orb]; [|reflexivity].
    now destruct (existsb (String.eqb k) rest).
  - rewrite IH. destruct (String.eqb k key) eqn:Hk; cbn [orb]; [|reflexivity].
    apply String.eqb_eq in Hk. subst k. rewrite Hv.
    now destruct (existsb (String.eqb key) rest).
Qed.

(** An inline query parameter that the request body holds becomes an
    entry of the query string, with its substituted value
    percent-encoded, and leaves the body; the other properties stay. *)
Theorem query_parameter_moves_to_query context parameter name object value entry rest :
  param_ref parameter = None ->
  param_in parameter = Some "query" ->
  param_name parameter = Some name ->
  getProperty object name = Some value ->
  queryParameter this context parameter (Some object) = Ok (entry, rest) ->
  exists sent remaining,
    substituted value context = Ok sent
    /\ entry = Some (name ++ "=" ++ Builtin.encodeURIComponent sent)%string
    /\ rest = Some remaining
    /\ forall k, getProperty remaining k
                 = if String.eqb k name then None else getProperty object k.
Proof.
  intros Hr Hi Hn Hv. unfold queryParameter. rewrite Hr, Hi, Hn. cbn [String.eqb Ascii.eqb Bool.eqb].
  assert (Ho : notNull (Some object) = Some object) by (destruct object; try reflexivity; discriminate).
  rewrite Ho, Hv. intro H. apply bind_Ok in H. destruct H as (sent & Hs & H).
  apply bind_Ok in H. destruct H as (_ & _ & H). injection H as <- <-.
  exists sent, (deleteProperty object name). repeat split; auto.
  intro k. apply getProperty_delete.
Qed.

(** A step for a path that the contract lacks, run against the canned
    token endpoint, is prepared as a [post] only, and a JSON answer with
    status 200 is validated as a token response. *)
Theorem canned_token_endpoint contextPath step context request path response :
  invoke_path step = Some path ->
  lookup path (paths (spec this)) = None ->
  invoke_spec step = Some "oauth2.ClientCredentials" ->
  prepare this contextPath step context = Ok request ->
  status response = Some (Number.of_Z 200) ->
  lookup "content-type" (headers response) = Some "application/json" ->
  prepared_method request = "post"
  /\ validateResponse this (prepared_operation request) response
     = validateJson this (body response) StandardSpecs.tokenResponse None false.
Proof.
  intros Hpath Hnone Hspec H Hstatus Htype. unfold prepare in H.
  rewrite Hpath, Hnone, Hspec in H.
  destruct (invoke_method step) as [method|]; [|discriminate].
  cbn [StandardSpecs.getSpec String.eqb Ascii.eqb Bool.eqb bind] in H.
  apply bind_Ok in H. destruct H as ([] & _ & H).
  apply bind_Ok in H. destruct H as (requestHeaders & _ & H).
  apply bind_Ok in H. destruct H as (r & _ & H).
  cbn [operations lookup] in H.
  destruct (String.eqb (Str.toLowerCase method) "post") eqn:Hpost; [|discriminate].
  apply String.eqb_eq in Hpost.
  apply bind_Ok in H. destruct H as (q & _ & H). injection H as <-.
  cbn [prepared_method prepared_operation]. split; [exact Hpost|].
  unfold validateResponse. cbn [responses]. rewrite Hstatus.
  change (Number.toString (Number.of_Z 200)) with "200".
  cbn [lookup String.eqb Ascii.eqb Bool.eqb response_ref content]. rewrite Htype.
  reflexivity.
Qed.

(** [Basic {user:password}], with a user and a password that hold no
    line terminator (LF, CR, U+2028, U+2029), is sent as [Basic] and the
    base64 form of [user:password], under the key the header was
    written with. *)
Theorem basic_credential_encoded requestHeaders context key user password :
  key = "authorization"
  \/ (key = "Authorization" /\ lookup "authorization" requestHeaders = None) ->
  lookup key requestHeaders = Some ("Basic " ++ "{" ++ user ++ ":" ++ password ++ "}")%string ->
  user <> EmptyString -> password <> EmptyString ->
  Str.on_one_line (Str.chars user) = true ->
  Str.on_one_line (Str.chars password) = true ->
  authorize requestHeaders context
  = Ok (assign key ("Basic " ++ Builtin.toBase64 (user ++ ":" ++ password))%string
               requestHeaders).
Proof.
  intros Hkey Hl Hu Hp Hlu Hlp.
  set (inner := Str.chars user ++ ":"%char :: Str.chars password).
  set (credential := ("{" ++ user ++ ":" ++ password ++ "}")%string) in *.
  assert (Hchars : Str.chars credential = Pattern.lbrace :: inner ++ [Pattern.rbrace]).
  { unfold credential, inner. rewrite !chars_append.
    change (Str.chars "{") with [Pattern.lbrace]. change (Str.chars ":") with [":"%char].
    change (Str.chars "}") with [Pattern.rbrace].
    cbn [app]. now rewrite <- app_assoc. }
  assert (Hinner : Str.on_one_line inner = true).
  { unfold inner. rewrite (on_one_line_app ":"%char) by reflexivity.
    cbn [Str.on_one_line].
    change (Str.is_line_terminator (":"%char :: Str.chars password)) with false.
    now rewrite Hlu, Hlp. }
  assert (Hsel : match lookup "authorization" requestHeaders with
                 | Some a => Some a
                 | None => lookup "Authorization" requestHeaders
                 end = Some ("Basic " ++ credential)%string
                 /\ match lookup "authorization" requestHeaders with
                    | Some _ => "authorization"
                    | None => "Authorization"
                    end = key).
  { destruct Hkey as [->|[-> Hnone]].
    - now rewrite Hl.
    - now rewrite Hnone, Hl. }
  destruct Hsel as [Hsel Hk]. unfold authorize. rewrite Hsel, Hk.
  assert (Hstart : Str.startsWith ("Basic " ++ credential) "Basic " = true).
  { unfold Str.startsWith. rewrite chars_append. apply starts_with_app. }
  rewrite Hstart.
  assert (Hsub : Str.substring_from 6 ("Basic " ++ credential) = credential).
  { unfold Str.substring_from. rewrite chars_append.
    change 6 with (List.length (Str.chars "Basic ")).
    rewrite skipn_app_length. apply of_chars_chars. }
  rewrite Hsub.
  assert (Htrim : Str.trim credential = credential).
  { unfold Str.trim. rewrite Hchars, trim_chars_bare by reflexivity.
    rewrite <- Hchars. apply of_chars_chars. }
  rewrite Htrim.
  assert (Hcred : Pattern.isCredential credential = true).
  { unfold Pattern.isCredential. rewrite Hchars, rev_app_distr. cbn [rev app].
    rewrite !rev_involutive, Hinner.
    change (Ascii.eqb Pattern.lbrace Pattern.lbrace) with true.
    change (Ascii.eqb Pattern.rbrace Pattern.rbrace) with true. cbn [andb].
    unfold inner. destruct user as [|a user]; [congruence|].
    destruct password as [|b password]; [congruence|].
    change (Str.chars (String a user)) with (a :: Str.chars user).
    change (Str.chars (String b password)) with (b :: Str.chars password).
    cbn [app tl].
    rewrite removelast_app by discriminate.
    rewrite existsb_app. apply orb_true_iff. right.
    change (removelast (":"%char :: b :: Str.chars password))
      with (":"%char :: removelast (b :: Str.chars password)).
    reflexivity. }
  rewrite Hcred, Hchars. cbn [tl]. rewrite removelast_last.
  assert (Hin : Str.of_chars inner = (user ++ ":" ++ password)%string).
  { unfold inner. change (":"%char :: Str.chars password) with (Str.chars ":" ++ Str.chars password).
    rewrite <- !chars_append. apply of_chars_chars. }
  rewrite Hin. f_equal. f_equal.
  unfold Pattern.replaceBraces. rewrite chars_append, Hchars.
  change (Str.chars "Basic ") with ["B"; "a"; "s"; "i"; "c"; " "]%char.
  cbn [app Pattern.braced].
  change (Ascii.eqb "B" Pattern.lbrace) with false.
  change (Ascii.eqb "a" Pattern.lbrace) with false.
  change (Ascii.eqb "s" Pattern.lbrace) with false.
  change (Ascii.eqb "i" Pattern.lbrace) with false.
  change (Ascii.eqb "c" Pattern.lbrace) with false.
  change (Ascii.eqb " " Pattern.lbrace) with false.
  change (Ascii.eqb Pattern.lbrace Pattern.lbrace) with true.
  cbv iota.
  rewrite greedyClose_last.
  2: exact Hinner.
  2:{ unfold inner. rewrite length_app. cbn [List.length]. lia. }
  cbn [rev app List.length Nat.add].
  rewrite skipn_all2.
  2:{ cbn [List.length]. rewrite length_app. cbn [List.length]. lia. }
  rewrite app_nil_r.
  change (Str.of_chars (Str.chars ("Basic " ++ Builtin.toBase64 (user ++ ":" ++ password)))
          = ("Basic " ++ Builtin.toBase64 (user ++ ":" ++ password))%string).
  apply of_chars_chars.
Qed.

(** A [Bearer] credential is trimmed and substituted, and the result
    is stored under the lower-case key: a header written as
    [Authorization] stays as it was, and the substituted one is sent
    beside it. *)
Theorem bearer_stored_in_lower_case requestHeaders context token replaced :
  lookup "authorization" requestHeaders = None ->
  lookup "Authorization" requestHeaders = Some ("Bearer " ++ token)%string ->
  replaceBrackets (Some (Str.trim token)) context None = Ok (Some replaced) ->
  authorize requestHeaders context
  = Ok (requestHeaders ++ [("authorization", ("Bearer " ++ replaced)%string)]).
Proof.
  intros Hlow Hup Hrep. unfold authorize. rewrite Hlow, Hup.
  assert (Hb : Str.startsWith ("Bearer " ++ token) "Basic " = false) by reflexivity.
  assert (Hs : Str.startsWith ("Bearer " ++ token) "Bearer " = true).
  { unfold Str.startsWith. rewrite chars_append. apply starts_with_app. }
  rewrite Hb, Hs.
  assert (Hsub : Str.substring_from 7 ("Bearer " ++ token) = token).
  { unfold Str.substring_from. rewrite chars_append.
    change 7 with (List.length (Str.chars "Bearer ")).
    rewrite skipn_app_length. apply of_chars_chars. }
  rewrite Hsub, Hrep. cbn [bind]. f_equal.
  clear Hup. induction requestHeaders as [|[k v] l IH]; [reflexivity|].
  cbn [lookup] in Hlow. cbn [assign app].
  destruct (String.eqb "authorization" k); [discriminate|]. now rewrite IH.
Qed.

(** The expected headers, given as an object, are a lower bound: each
    of them is compared loosely with the header of the response of that
    name, [null] standing for a header that is missing; what else the
    response holds is not looked at. *)
Theorem expected_headers_compared entries context response :
  checkHeaders (HeadersObject entries) context response = Ok tt
  <-> forall k v, In (k, v) entries ->
                  JS.looseEquals v match lookup k (headers response) with
                                   | Some a => JStr a
                                   | None => JNull
                                   end = true.
Proof.
  unfold checkHeaders. rewrite <- succeeds_Ok, succeeds_forEach, forallb_forall. split.
  - intros H k v Hin. specialize (H (k, v) Hin). cbn [fst snd] in H.
    rewrite succeeds_throwIf in H. apply negb_true_iff in H.
    destruct (lookup k (headers response)); now apply negb_false_iff in H.
  - intros H [k v] Hin. specialize (H k v Hin). cbn [fst snd].
    rewrite succeeds_throwIf. destruct (lookup k (headers response)); now rewrite H.
Qed.

End RequestFacts.

(* ================================================================== *)
(** ** The command line *)

Lemma key_argument (argument key : string) :
  Str.startsWith argument "--" = true ->
  Str.substring_from 2 argument = key ->
  argument = ("--" ++ key)%string.
Proof.
  unfold Str.startsWith, Str.substring_from. intros Hs <-.
  apply starts_with_split in Hs. change (List.length (Str.chars "--")) with 2 in Hs.
  rewrite <- (of_chars_chars argument) at 1. rewrite Hs at 1.
  rewrite of_chars_append. reflexivity.
Qed.

(** One of the files the loop over the arguments fills: it is left as it
    was, or holds the argument that follows the last key of its name. *)
Lemma parseArguments_field (field : Cli.Options -> option string) (name : string) :
  (forall key value o,
      field (Cli.store key value o) = if String.eqb key name then Some value else field o) ->
  (forall a b c d e, field {| Cli.specFilePath := a; Cli.testSetFilePath := b;
                              Cli.logSettingFilePath := c; Cli.verboseLog := d |}
                     = field {| Cli.specFilePath := a; Cli.testSetFilePath := b;
                                Cli.logSettingFilePath := c; Cli.verboseLog := e |}) ->
  forall n arguments o,
    List.length arguments <= n ->
    field (Cli.parseArguments arguments o) = field o
    \/ exists before value after,
        arguments = before ++ ("--" ++ name)%string :: value :: after
        /\ field (Cli.parseArguments arguments o) = Some value.
Proof.
  intros Hstore Hverbose. induction n as [|n IH]; intros arguments o Hlen.
  - destruct arguments; [now left|simpl in Hlen; lia].
  - destruct arguments as [|argument rest]; [now left|].
    cbn [List.length] in Hlen. cbn [Cli.parseArguments].
    destruct (Str.startsWith argument "--" && (1 <? String.length argument)%nat) eqn:Hkey.
    + apply andb_prop in Hkey. destruct Hkey as [Hstart _].
      destruct (String.eqb (Str.substring_from 2 argument) "verbose").
      * match goal with |- context [Cli.parseArguments rest ?o'] =>
          destruct (IH rest o' ltac:(lia)) as [H|(before & value & after & -> & H)] end.
        -- left. rewrite H. destruct o. apply Hverbose.
        -- right. exists (argument :: before), value, after. split; [reflexivity|exact H].
      * destruct rest as [|value rest]; [now left|].
        cbn [List.length] in Hlen.
        destruct (IH rest (Cli.store (Str.substring_from 2 argument) value o) ltac:(lia))
          as [H|(before & value' & after & -> & H)].
        -- rewrite H, Hstore.
           destruct (String.eqb (Str.substring_from 2 argument) name) eqn:Hname; [|now left].
           right. apply String.eqb_eq in Hname.
           exists [], value, rest. split; [|reflexivity].
           cbn [app]. now rewrite (key_argument _ _ Hstart Hname).
        -- right. exists (argument :: value :: before), value', after.
           split; [reflexivity|exact H].
    + destruct (IH rest o ltac:(lia)) as [H|(before & value & after & -> & H)].
      * now left.
      * right. exists (argument :: before), value, after. split; [reflexivity|exact H].
Qed.

(** The validator is started only when the arguments hold the keys
    [--spec] and [--testcase], each followed by the file it is started
    with. *)
Theorem validator_started_with_keys argv specFile testSetFile logFile verboseLog :
  Cli.main argv = Cli.Validate specFile testSetFile logFile verboseLog ->
  (exists before after, skipn 2 argv = before ++ "--spec" :: specFile :: after)
  /\ (exists before after, skipn 2 argv = before ++ "--testcase" :: testSetFile :: after).
Proof.
  unfold Cli.main.
  destruct (Cli.specFilePath (Cli.parseArguments (skipn 2 argv) Cli.initial))
    as [specFile'|] eqn:Hspec; [|discriminate].
  destruct (Cli.testSetFilePath (Cli.parseArguments (skipn 2 argv) Cli.initial))
    as [testSetFile'|] eqn:Htest; [|discriminate].
  intro H. injection H as -> -> _ _. split.
  - destruct (parseArguments_field Cli.specFilePath "spec") with
      (n := List.length (skipn 2 argv)) (arguments := skipn 2 argv) (o := Cli.initial)
      as [H|(before & value & after & Heq & H)].
    + intros key value o. unfold Cli.store.
      destruct (String.eqb key "spec"); [reflexivity|].
      destruct (String.eqb key "testcase"); [reflexivity|].
      destruct (String.eqb key "log"); reflexivity.
    + reflexivity.
    + lia.
    + rewrite Hspec in H. discriminate.
    + rewrite Hspec in H. injection H as ->. now exists before, after.
  - destruct (parseArguments_field Cli.testSetFilePath "testcase") with
      (n := List.length (skipn 2 argv)) (arguments := skipn 2 argv) (o := Cli.initial)
      as [H|(before & value & after & Heq & H)].
    + intros key value o. unfold Cli.store.
      destruct (String.eqb key "testcase") eqn:Hk.
      * apply String.eqb_eq in Hk. subst key. reflexivity.
      * destruct (String.eqb key "spec"); [reflexivity|].
        destruct (String.eqb key "log"); reflexivity.
    + reflexivity.
    + lia.
    + rewrite Htest in H. discriminate.
    + rewrite Htest in H. injection H as ->. now exists before, after.
Qed.

(* ================================================================== *)
(** ** The further statements at closed inputs *)

Lemma getComponent_by_name_witness :
  getComponent namedValidator "#/components/schemas/Name" = Some (typed "string")
  <-> exists name, "#/components/schemas/Name" = (componentPrefix ++ name)%string
                   /\ lookup name [("Name", typed "string")] = Some (typed "string").
Proof.
  apply (getComponent_by_name namedValidator
           {| schemas := Some [("Name", typed "string")] |}); reflexivity.
Defined.

Lemma unresolved_reference_raises_witness :
  @validateJson acceptingEngine bareValidator (JStr "a") danglingReference None false
  = Throw (SchemaInvalid danglingReference).
Proof.
  apply (@unresolved_reference_raises acceptingEngine bareValidator (JStr "a")
           danglingReference "#/components/schemas/Missing"); reflexivity.
Defined.

Lemma reference_stands_for_component_witness :
  @validateJson acceptingEngine namedValidator (JStr "a") nameReference None false
  = @validateJson acceptingEngine namedValidator (JStr "a") (typed "string") None false.
Proof.
  apply (@reference_stands_for_component acceptingEngine namedValidator (JStr "a")
           nameReference (typed "string") "#/components/schemas/Name"); reflexivity.
Defined.

Lemma unknown_type_accepts_witness :
  @validateJson acceptingEngine bareValidator (JBool true) (typed "date") None false = Ok tt.
Proof.
  apply (@unknown_type_accepts acceptingEngine bareValidator (JBool true)
           (typed "date") (typed "date") "date"); try reflexivity.
  simpl. intuition discriminate.
Defined.

Lemma array_succeeds_witness :
  succeeds (@validateJson acceptingEngine bareValidator (JArr [JStr "a"]) stringList None false)
  = true
  <-> exists elements,
      JArr [JStr "a"] = JArr elements
      /\ (forall m, maxItems stringList = Some m ->
                    Number.gtb (Number.of_nat (List.length elements)) m = false)
      /\ (forall m, minItems stringList = Some m ->
                    Number.ltb (Number.of_nat (List.length elements)) m = false)
      /\ (forall valueSchema value,
            items stringList = Some valueSchema -> In value elements ->
            succeeds (@validateJson acceptingEngine bareValidator value
                        (resolveValueSchema bareValidator valueSchema) None false)
            = true).
Proof.
  apply (@array_succeeds acceptingEngine bareValidator (JArr [JStr "a"])
           stringList stringList None false); reflexivity.
Defined.

Lemma coerced_NaN_passes_witness :
  @validateJson acceptingEngine bareValidator (JStr "abc")
     (with_maximum (Number.of_Z 1) (typed "number")) (Some "limit") true = Ok tt.
Proof.
  apply (@coerced_NaN_passes acceptingEngine bareValidator (JStr "abc")
           (with_maximum (Number.of_Z 1) (typed "number"))
           (with_maximum (Number.of_Z 1) (typed "number"))); reflexivity.
Defined.

Lemma coerced_null_raises_witness :
  @validateJson acceptingEngine bareValidator JNull (typed "string") (Some "name") true
  = Throw (TypeError "Cannot read properties of null (reading 'toString')").
Proof.
  apply (@coerced_null_raises acceptingEngine bareValidator (typed "string") (typed "string"));
    reflexivity.
Defined.

Lemma string_length_bounds_witness :
  succeeds (@validateJson acceptingEngine bareValidator (JStr accented) oneUnit None false)
  = true
  <-> 1 <= Str.length accented <= 1.
Proof.
  apply (@string_length_bounds acceptingEngine bareValidator accented oneUnit oneUnit 1 1);
    reflexivity.
Defined.

Lemma unknown_operator_passes_witness :
  compareOperands "=>" (JNum (Number.of_Z 1)) (JNum (Number.of_Z 2)) = true.
Proof.
  apply (unknown_operator_passes "=>"). simpl. intuition discriminate.
Defined.

Lemma dotted_string_never_equal_witness :
  compareOperands "=" (JStr "1.2.3") (JStr "1.2.3") = false
  /\ compareOperands "!=" (JStr "1.2.3") (JStr "1.2.3") = true.
Proof.
  apply (dotted_string_never_equal "1.2.3" (JStr "1.2.3")); reflexivity.
Defined.

Lemma template_without_group_unchanged_witness :
  @replaceBrackets MemberPath.jsonpath (Some "{} and {") [] None = Ok (Some "{} and {").
Proof.
  apply (@template_without_group_unchanged MemberPath.jsonpath "{} and {" [] None).
  reflexivity.
Defined.

Lemma context_reference_reads_step_witness :
  @replaceContext MemberPath.jsonpath (contextPath_of 1 "id") [JObj [("id", JStr "a")]]
  = Throw (JSONPathError "obj needs to be an object").
Proof.
  apply (@context_reference_reads_step MemberPath.jsonpath [JObj [("id", JStr "a")]] 1 "id").
  reflexivity.
Defined.

Lemma plain_template_matches_its_string_witness :
  @checkBody MemberPath.jsonpath (JStr "done") [] (JStr "done") = Ok tt
  <-> JStr "done" = JStr "done".
Proof.
  apply (@plain_template_matches_its_string MemberPath.jsonpath "done" [] (JStr "done")).
  reflexivity.
Defined.

Lemma context_grows_with_passes_witness :
  exists entries bodies,
    log (snd pingOutcome) = log (start [Ok pong]) ++ entries
    /\ context (snd pingOutcome) = context (start [Ok pong]) ++ bodies
    /\ passed entries = List.length bodies
    /\ (if succeeds (fst pingOutcome)
        then List.length bodies = List.length [call "/ping" None] - 0
        else List.length bodies < List.length [call "/ping" None] - 0).
Proof.
  apply (@context_grows_with_passes acceptingEngine MemberPath.jsonpath Scripted.http
           demoValidator EmptyString [call "/ping" None] 0 (start [Ok pong])
           (fst pingOutcome) (snd pingOutcome)).
  - simpl. lia.
  - reflexivity.
Defined.

Lemma cases_start_in_order_witness :
  exists n,
    startedTitles (log (snd demoOutcome))
    = startedTitles (log (start [Ok pong]))
      ++ map title (firstn n (skipn 0 [pingCase; itemCase])).
Proof.
  apply (@cases_start_in_order acceptingEngine MemberPath.jsonpath Scripted.http
           demoValidator [pingCase; itemCase] 0 (start [Ok pong])
           (fst demoOutcome) (snd demoOutcome)).
  reflexivity.
Defined.

Lemma returned_run_started_all_witness :
  startedTitles (log (snd demoOutcome))
  = startedTitles (log (start [Ok pong]))
    ++ map title (skipn 0 [pingCase; itemCase]).
Proof.
  apply (@returned_run_started_all acceptingEngine MemberPath.jsonpath Scripted.http
           demoValidator [pingCase; itemCase] 0 (start [Ok pong])
           (snd demoOutcome)).
  - simpl. intros testCase [<-|[<-|[]]]; split; discriminate.
  - reflexivity.
Defined.

Lemma prepared_method_known_witness :
  exists path method item,
    invoke_path (call "/ping" None) = Some path
    /\ invoke_method (call "/ping" None) = Some method
    /\ "get" = Str.toLowerCase method
    /\ In "get" methods
    /\ match lookup path (paths (spec demoValidator)) with
       | Some declared => item = declared
       | None => exists key, invoke_spec (call "/ping" None) = Some key
                             /\ StandardSpecs.getSpec key = Some item
       end
    /\ lookup "get" (operations item) = Some anyOperation.
Proof.
  apply (@prepared_method_known acceptingEngine MemberPath.jsonpath demoValidator
           EmptyString (call "/ping" None) []
           {| prepared_method := "get"; prepared_path := "/ping";
              prepared_headers := None; prepared_body := None;
              prepared_operation := anyOperation |}).
  reflexivity.
Defined.

Lemma undeclared_path_sends_nothing_witness :
  @invokeStep acceptingEngine MemberPath.jsonpath Scripted.http bareValidator
     EmptyString (call "/ping" None) (start [Ok pong])
  = (Throw (PathNotFound "/ping"), start [Ok pong]).
Proof.
  apply (@undeclared_path_sends_nothing acceptingEngine MemberPath.jsonpath Scripted.http
           bareValidator EmptyString (call "/ping" None) "/ping" "GET" (start [Ok pong]));
    try reflexivity.
  simpl. intros key H. discriminate H.
Defined.

Lemma query_parameter_moves_to_query_witness :
  exists sent remaining,
    @substituted MemberPath.jsonpath (JStr "a b") [] = Ok sent
    /\ Some "q=a%20b" = Some ("q" ++ "=" ++ Builtin.encodeURIComponent sent)%string
    /\ Some (JObj [("page", JNum (Number.of_Z 2))]) = Some remaining
    /\ forall k, getProperty remaining k
                 = if String.eqb k "q" then None
                   else getProperty (JObj [("q", JStr "a b"); ("page", JNum (Number.of_Z 2))]) k.
Proof.
  apply (@query_parameter_moves_to_query acceptingEngine MemberPath.jsonpath bareValidator
           [] queryOfQ "q" (JObj [("q", JStr "a b"); ("page", JNum (Number.of_Z 2))])
           (JStr "a b")); reflexivity.
Defined.

Lemma canned_token_endpoint_witness :
  "post" = "post"
  /\ @validateResponse acceptingEngine bareValidator
       (match StandardSpecs.getSpec "oauth2.ClientCredentials" with
        | Some item => match lookup "post" (operations item) with
                       | Some operation => operation
                       | None => anyOperation
                       end
        | None => anyOperation
        end) tokenAnswer
     = @validateJson acceptingEngine bareValidator (body tokenAnswer)
         StandardSpecs.tokenResponse None false.
Proof.
  apply (@canned_token_endpoint acceptingEngine MemberPath.jsonpath bareValidator
           EmptyString tokenCall []
           {| prepared_method := "post"; prepared_path := "/token";
              prepared_headers := None; prepared_body := None;
              prepared_operation :=
                match StandardSpecs.getSpec "oauth2.ClientCredentials" with
                | Some item => match lookup "post" (operations item) with
                               | Some operation => operation
                               | None => anyOperation
                               end
                | None => anyOperation
                end |} "/token" tokenAnswer); reflexivity.
Defined.

Lemma basic_credential_encoded_witness :
  @authorize MemberPath.jsonpath [("authorization", "Basic {user1:pass1}")] []
  = Ok (assign "authorization" ("Basic " ++ Builtin.toBase64 ("user1" ++ ":" ++ "pass1"))%string
               [("authorization", "Basic {user1:pass1}")]).
Proof.
  apply (@basic_credential_encoded MemberPath.jsonpath
           [("authorization", "Basic {user1:pass1}")] [] "authorization" "user1" "pass1");
    try reflexivity; try discriminate.
  left. reflexivity.
Defined.

(** A credential that holds a line separator is no match of
    [/^{.+:.+}$/]: the header is sent as it is written. *)
Lemma separated_credential_kept :
  @authorize MemberPath.jsonpath
     [("authorization", ("Basic {user1" ++ lineSeparator ++ ":pass1}")%string)] []
  = Ok [("authorization", ("Basic {user1" ++ lineSeparator ++ ":pass1}")%string)].
Proof. reflexivity. Qed.

Lemma bearer_stored_in_lower_case_witness :
  @authorize MemberPath.jsonpath
     [("Authorization", "Bearer {context[0].access_token}")]
     [JObj [("access_token", JStr "abc")]]
  = Ok ([("Authorization", "Bearer {context[0].access_token}")]
          ++ [("authorization", ("Bearer " ++ "abc")%string)]).
Proof.
  apply (@bearer_stored_in_lower_case MemberPath.jsonpath
           [("Authorization", "Bearer {context[0].access_token}")]
           [JObj [("access_token", JStr "abc")]] "{context[0].access_token}" "abc");
    reflexivity.
Defined.

Lemma validator_started_with_keys_witness :
  (exists before after,
      skipn 2 ["node"; "lupinus"; "--spec"; "oas.yaml"; "--testcase"; "testcases.yaml"]
      = before ++ "--spec" :: "oas.yaml" :: after)
  /\ (exists before after,
         skipn 2 ["node"; "lupinus"; "--spec"; "oas.yaml"; "--testcase"; "testcases.yaml"]
         = before ++ "--testcase" :: "testcases.yaml" :: after).
Proof.
  apply (validator_started_with_keys
           ["node"; "lupinus"; "--spec"; "oas.yaml"; "--testcase"; "testcases.yaml"]
           "oas.yaml" "testcases.yaml" None false).
  reflexivity.
Defined.
